(** * PathGenerator (ql/MonteCarlo/pathgenerator.hpp)

    A shallow embedding of QuantLib's [PathGenerator<GSG>] class template and
    the properties its specification states about it.

    Conventions of the embedding.
    - [Real] and [Time] are QuantLib's typedefs of [double].  The class is
      embedded twice.  The first embedding takes them as exact rationals in
      canonical form, and carries the statements about the structure of
      the computation: which collaborator is drawn from, which function of
      the process receives which argument, what is written where.
      Rounding plays no part in those: the one identity of arithmetic they
      use, that multiplying by -1 negates, is exact in binary64 too.  The
      second embedding, module [Double], follows the first line for line
      over IEEE 754 binary64 with rounding to nearest, and carries the
      statements that name decimal values or depend on how sums round.
    - [Size] (an unsigned machine integer) is an [N]; the one subtraction the
      class performs on it, [timeGrid_.size()-1], wraps around at zero.
    - Member functions that mutate [mutable] members take the object and
      return the new object next to their result.
    - Reading or writing an array out of its range, and dereferencing a null
      process handle, is undefined behaviour in C++: the operation returns
      [None]. *)

From Stdlib Require Import ZArith NArith QArith Qcanon String DecimalString Lia.
From Stdlib Require Import Ascii.
From Stdlib Require DecimalN DecimalPos.
From Stdlib Require Import Floats.
From stdpp Require Import base option list numbers.

Abbreviation Real := Qc.
Abbreviation Time := Qc.
Abbreviation Size := N.

(** [Sample<T>]: a value with its weight. *)
Record Sample (T : Type) := mkSample { value : T; weight : Real }.
Arguments mkSample {T} _ _.
Arguments value {T} _.
Arguments weight {T} _.

(** The largest [Size] (64-bit [std::size_t]). *)
Definition Size_max : Size := (2 ^ 64 - 1)%N.

(** [n - 1] on [Size]: unsigned, so [0 - 1] wraps to the largest value. *)
Definition Size_minus_one (n : Size) : Size :=
  if (n =? 0)%N then Size_max else (n - 1)%N.

(** Decimal rendering of a [Size], as [operator<<] prints it. *)
Definition show_Size (n : Size) : string :=
  NilZero.string_of_uint (N.to_uint n).

(** Modelled from the spec: the error raised by the QL_REQUIRE macro of
    ql/errors.hpp, which the spec calls a ConfigurationError; it carries
    the message the macro is given. *)
Inductive Error : Type :=
  | ConfigurationError (message : string).

Definition message_of (e : Error) : string :=
  match e with ConfigurationError m => m end.

(** ** Collaborators *)

Module TimeGrid.

(** Modelled from the spec: TimeGrid, of ql/timegrid.hpp, is an ordered
    sequence of time points, exposing its size, indexed access and the
    per-step delta dt(i) = t[i+1] - t[i]. *)
Record t : Type := mk { times : list Time }.

Definition size (g : t) : Size := N.of_nat (length (times g)).

(** [timeGrid[i]] *)
Definition at_ (g : t) (i : nat) : option Time := times g !! i.

(** [timeGrid.dt(i)] *)
Definition dt (g : t) (i : nat) : option Time :=
  t0 ← times g !! i;
  t1 ← times g !! S i;
  Some (t1 - t0)%Qc.

(** Modelled from the spec: the constructor TimeGrid(length, timeSteps)
    builds the uniform grid of [timeSteps] subintervals of [0, length],
    that is the [timeSteps + 1] points [i * (length / timeSteps)]. *)
Definition uniform (length : Time) (timeSteps : Size) : t :=
  let dt := (length / Q2Qc (inject_Z (Z.of_N timeSteps)))%Qc in
  mk (map (fun i : nat => (Q2Qc (inject_Z (Z.of_nat i)) * dt)%Qc)
          (seq 0 (S (N.to_nat timeSteps)))).

End TimeGrid.

Module Path.

(** Modelled from the spec: Path, of ql/MonteCarlo/path.hpp, is an array
    of one real value per point of its time grid. *)
Abbreviation t := (list Real).

(** [Path(timeGrid)]: one slot per grid point.  The slots hold no
    meaningful value until a path is generated; they are zero here. *)
Definition make (g : TimeGrid.t) : t :=
  replicate (length (TimeGrid.times g)) (Q2Qc 0).

(** [path[i] = x]: an in-place write, undefined out of range. *)
Definition set (path : t) (i : nat) (x : Real) : option t :=
  if decide (i < length path) then Some (<[i := x]> path) else None.

End Path.

(** The one-dimensional process capability: [x0()], [expectation(t,x,dt)],
    [evolve(t,x,dt,dw)] and [apply(mean,shock)] are virtual member functions
    of StochasticProcess1D, so a process is any choice of the four. *)
Record StochasticProcess1D : Type := mkProcess1D {
  x0 : Real;
  expectation : Time -> Real -> Time -> Real;
  evolve : Time -> Real -> Time -> Real -> Real;
  apply : Real -> Real -> Real
}.

(** What a [shared_ptr<StochasticProcess>] can point to. *)
Inductive StochasticProcess : Type :=
  | OneDimensional (p : StochasticProcess1D)
  | NotOneDimensional.

(** [boost::dynamic_pointer_cast<StochasticProcess1D>]: null unless the
    process is one-dimensional. *)
Definition dynamic_pointer_cast (process : StochasticProcess)
  : option StochasticProcess1D :=
  match process with
  | OneDimensional p => Some p
  | NotOneDimensional => None
  end.

(** The template parameter [GSG]: a gaussian sequence generator.
    [nextSequence] advances the generator's internal state. *)
Class SequenceGenerator (GSG : Type) : Type := {
  dimension : GSG -> Size;
  nextSequence : GSG -> GSG * Sample (list Real);
  lastSequence : GSG -> Sample (list Real)
}.

Module BrownianBridge.

(** [BrownianBridge<GSG>], of ql/MonteCarlo/brownianbridge.hpp, as
    PathGenerator consumes it: it is built from the process, the grid and
    the generator, [next()] produces a fresh sample and advances the
    bridge, [last()] returns the retained one.  How it computes them is
    left open: an implementation is any choice of the three.  The bridge
    is a member object of its own, [bb_]: its state is not the state of
    the member [generator_] it was built from. *)
Class Ops (GSG BB : Type) : Type := {
  make : option StochasticProcess1D -> TimeGrid.t -> GSG -> BB;
  next : BB -> BB * Sample (list Real);
  last : BB -> Sample (list Real)
}.

End BrownianBridge.

(** [for (Size i = lo; i < hi; i++) body]: the bound is fixed while the loop
    runs, so the body is run at [lo, lo+1, ..., hi-1] in turn. *)
Fixpoint for_each {S : Type} (body : nat -> S -> option S)
    (indices : list nat) (s : S) : option S :=
  match indices with
  | [] => Some s
  | i :: rest => s' ← body i s; for_each body rest s'
  end.

Definition for_loop {S : Type} (lo hi : nat) (body : nat -> S -> option S)
    (s : S) : option S :=
  for_each body (seq lo (hi - lo)) s.

(** ** The class *)

Module PathGenerator.

Section Class.

Context {GSG BB : Type}.
Context {generators : SequenceGenerator GSG}.
Context {bridges : BrownianBridge.Ops GSG BB}.

Record t : Type := mk {
  brownianBridge_ : bool;
  generator_ : GSG;
  dimension_ : Size;
  timeGrid_ : TimeGrid.t;
  process_ : option StochasticProcess1D;
  next_ : Sample Path.t;
  bb_ : BB
}.

(** The message of the dimension check. *)
Definition mismatch (dimension_ timeSteps : Size) : string :=
  String.append "sequence generator dimensionality ("
    (String.append (show_Size dimension_)
       (String.append ") != timeSteps ("
          (String.append (show_Size timeSteps) ")"))).

(** Constructor (process, length, timeSteps, generator, brownianBridge). *)
Definition make_uniform (process : StochasticProcess) (length : Time)
    (timeSteps : Size) (generator : GSG) (brownianBridge : bool)
  : Error + t :=
  let generator_ := generator in
  let dimension_ := dimension generator_ in
  let timeGrid_ := TimeGrid.uniform length timeSteps in
  let process_ := dynamic_pointer_cast process in
  let next_ := mkSample (Path.make timeGrid_) (Q2Qc 1) in
  let bb_ := BrownianBridge.make process_ timeGrid_ generator_ in
  if (dimension_ =? timeSteps)%N
  then inr (mk brownianBridge generator_ dimension_ timeGrid_ process_
               next_ bb_)
  else inl (ConfigurationError (mismatch dimension_ timeSteps)).

(** Constructor (process, timeGrid, generator, brownianBridge). *)
Definition make_grid (process : StochasticProcess) (timeGrid : TimeGrid.t)
    (generator : GSG) (brownianBridge : bool) : Error + t :=
  let generator_ := generator in
  let dimension_ := dimension generator_ in
  let timeGrid_ := timeGrid in
  let process_ := dynamic_pointer_cast process in
  let next_ := mkSample (Path.make timeGrid_) (Q2Qc 1) in
  let bb_ := BrownianBridge.make process_ timeGrid_ generator_ in
  if (dimension_ =? Size_minus_one (TimeGrid.size timeGrid_))%N
  then inr (mk brownianBridge generator_ dimension_ timeGrid_ process_
               next_ bb_)
  else inl (ConfigurationError
              (mismatch dimension_
                 (Size_minus_one (TimeGrid.size timeGrid_)))).

Definition size (pg : t) : Size := dimension_ pg.
Definition timeGrid (pg : t) : TimeGrid.t := timeGrid_ pg.

(** [antithetic ? -x : x] *)
Definition signed (antithetic : bool) (x : Real) : Real :=
  if antithetic then (- x)%Qc else x.

(** Body of the loop of the bridge branch, at index [i]. *)
Definition bridge_step (p : StochasticProcess1D) (g : TimeGrid.t)
    (stdDev : list Real) (antithetic : bool) (i : nat) (path : Path.t)
  : option Path.t :=
  t ← TimeGrid.at_ g (i - 1);
  dt ← TimeGrid.dt g (i - 1);
  hi ← stdDev !! (i - 1);
  lo ← stdDev !! (i - 2);
  let diffusion := (hi - lo)%Qc in
  prev ← path !! (i - 1);
  Path.set path i
    (apply p (expectation p t prev dt) (signed antithetic diffusion)).

(** Body of the loop of the direct branch, at index [i]. *)
Definition direct_step (p : StochasticProcess1D) (g : TimeGrid.t)
    (sequence : list Real) (antithetic : bool) (i : nat) (path : Path.t)
  : option Path.t :=
  t ← TimeGrid.at_ g (i - 1);
  dt ← TimeGrid.dt g (i - 1);
  prev ← path !! (i - 1);
  z ← sequence !! (i - 1);
  Path.set path i (evolve p t prev dt (signed antithetic z)).

(** The sample a call obtains, with the state it leaves behind:
    [bb_.last()] or [bb_.next()] in the bridge branch. *)
Definition obtain_bridge (antithetic : bool) (pg : t)
  : BB * Sample (list Real) :=
  if antithetic then (bb_ pg, BrownianBridge.last (bb_ pg))
  else BrownianBridge.next (bb_ pg).

(** [generator_.lastSequence()] or [generator_.nextSequence()] in the
    direct branch. *)
Definition obtain_direct (antithetic : bool) (pg : t)
  : GSG * Sample (list Real) :=
  if antithetic then (generator_ pg, lastSequence (generator_ pg))
  else nextSequence (generator_ pg).

(** [next(bool antithetic)].  The result is the sample left in [next_]
    (the C++ function returns a reference to that member). *)
Definition next_bool (antithetic : bool) (pg : t) : option (Sample Path.t * t) :=
  if brownianBridge_ pg then
    let '(bb', stdDev_) := obtain_bridge antithetic pg in
    let w := weight stdDev_ in
    p ← process_ pg;
    path ← Path.set (value (next_ pg)) 0 (x0 p);
    t ← TimeGrid.at_ (timeGrid_ pg) 0;
    dt ← TimeGrid.dt (timeGrid_ pg) 0;
    diffusion ← value stdDev_ !! 0;
    front ← path !! 0;
    path ← Path.set path 1
             (apply p (expectation p t front dt)
                (signed antithetic diffusion));
    path ← for_loop 2 (length path)
             (bridge_step p (timeGrid_ pg) (value stdDev_) antithetic)
             path;
    let result := mkSample path w in
    Some (result,
          mk (brownianBridge_ pg) (generator_ pg) (dimension_ pg)
             (timeGrid_ pg) (process_ pg) result bb')
  else
    let '(generator', sequence_) := obtain_direct antithetic pg in
    let w := weight sequence_ in
    p ← process_ pg;
    path ← Path.set (value (next_ pg)) 0 (x0 p);
    path ← for_loop 1 (length path)
             (direct_step p (timeGrid_ pg) (value sequence_) antithetic)
             path;
    let result := mkSample path w in
    Some (result,
          mk (brownianBridge_ pg) generator' (dimension_ pg)
             (timeGrid_ pg) (process_ pg) result (bb_ pg)).

Definition next (pg : t) : option (Sample Path.t * t) :=
  next_bool false pg.

Definition antithetic (pg : t) : option (Sample Path.t * t) :=
  next_bool true pg.

End Class.

Arguments t : clear implicits.

End PathGenerator.

(** ** Concrete collaborators, for running the class on explicit inputs *)

(** A generator that replays a script of draws and retains the latest. *)
Record ScriptedGenerator : Type := mkScripted {
  scripted_dimension : Size;
  pending : list (Sample (list Real));
  latest : Sample (list Real)
}.

Definition scripted_next (g : ScriptedGenerator)
  : ScriptedGenerator * Sample (list Real) :=
  match pending g with
  | [] => (g, latest g)
  | s :: rest => (mkScripted (scripted_dimension g) rest s, s)
  end.

#[export] Instance scripted_generator : SequenceGenerator ScriptedGenerator := {|
  dimension := scripted_dimension;
  nextSequence := scripted_next;
  lastSequence := latest
|}.

(** Running sums [v0, v0+v1, v0+v1+v2, ...] starting from [acc]. *)
Fixpoint running_sums (acc : Real) (v : list Real) : list Real :=
  match v with
  | [] => []
  | x :: rest => (acc + x)%Qc :: running_sums (acc + x)%Qc rest
  end.

Definition accumulate (s : Sample (list Real)) : Sample (list Real) :=
  mkSample (running_sums (Q2Qc 0) (value s)) (weight s).

(** A bridge that keeps a generator of its own and hands out the cumulative
    sums of its draws, in time order. *)
Record CumulativeBridge (GSG : Type) : Type := mkCumulative { source : GSG }.
Arguments mkCumulative {GSG} _.
Arguments source {GSG} _.

#[export] Instance cumulative_bridge {GSG : Type} `{!SequenceGenerator GSG}
  : BrownianBridge.Ops GSG (CumulativeBridge GSG) := {|
  BrownianBridge.make _ _ generator := mkCumulative generator;
  BrownianBridge.next b :=
    let '(g', s) := nextSequence (source b) in (mkCumulative g', accumulate s);
  BrownianBridge.last b := accumulate (lastSequence (source b))
|}.

(** An additive process with the given initial value, drift-free
    expectation and a step deviation [stdDeviation t x dt] scaling the
    shock in [evolve]. *)
Definition additive_process (start : Real)
    (stdDeviation : Time -> Real -> Time -> Real) : StochasticProcess1D :=
  {| x0 := start;
     expectation := fun _ x _ => x;
     evolve := fun t x dt dw => (x + stdDeviation t x dt * dw)%Qc;
     apply := fun mean shock => (mean + shock)%Qc |}.

Definition draw (v : list Q) (w : Q) : Sample (list Real) :=
  mkSample (map Q2Qc v) (Q2Qc w).

(** ** Explicit inputs *)

Abbreviation Bridge := (CumulativeBridge ScriptedGenerator).
Abbreviation Generator := (PathGenerator.t ScriptedGenerator Bridge).

(** A generator of dimension 2 about to draw [0.1, -0.2] with weight 1. *)
Definition two_draws : ScriptedGenerator :=
  mkScripted 2 [draw [0.1; -0.2]%Q 1%Q] (draw [] 0%Q).

(** A generator of dimension 2 whose draw [0.5, 0] accumulates to the
    bridge output [0.5, 0.5]. *)
Definition bridge_draws : ScriptedGenerator :=
  mkScripted 2 [draw [0.5; 0]%Q (3 # 4)%Q] (draw [] 0%Q).

(** Driftless additive processes starting at 100: [evolve] adds the shock
    as it is, scaled by the step, or scaled by a hundredth of the state. *)
Definition plain_process : StochasticProcess1D :=
  {| x0 := Q2Qc 100;
     expectation := fun _ x _ => x;
     evolve := fun _ x _ dw => (x + dw)%Qc;
     apply := fun mean shock => (mean + shock)%Qc |}.

Definition step_scaled_process : StochasticProcess1D :=
  additive_process (Q2Qc 100) (fun _ _ dt => dt).

Definition state_scaled_process : StochasticProcess1D :=
  additive_process (Q2Qc 100) (fun _ x _ => (x / Q2Qc 100)%Qc).

(** The object the first constructor returns for the given process,
    generator and flag on the two-step grid over [0,1]. *)
Definition two_steps (p : StochasticProcess1D) (generator : ScriptedGenerator)
    (brownianBridge : bool) : Generator :=
  PathGenerator.mk brownianBridge generator 2 (TimeGrid.uniform (Q2Qc 1) 2)
    (Some p)
    (mkSample (Path.make (TimeGrid.uniform (Q2Qc 1) 2)) (Q2Qc 1))
    (mkCumulative generator).

(** A generator of dimension 2 that has drawn [0.1, -0.2] and is about to
    draw [0.3, 0.4], then [0.5, -0.6]. *)
Definition drawn_once : ScriptedGenerator :=
  mkScripted 2 [draw [0.3; 0.4]%Q 1%Q; draw [0.5; -0.6]%Q (1 # 2)%Q]
    (draw [0.1; -0.2]%Q 1%Q).

(** The object the second constructor returns on the grid of the single
    point 0, for a generator of dimension 0. *)
Definition no_step (brownianBridge : bool) : Generator :=
  PathGenerator.mk brownianBridge (mkScripted 0 [] (draw [] 1%Q)) 0
    (TimeGrid.mk [Q2Qc 0]) (Some plain_process)
    (mkSample (Path.make (TimeGrid.mk [Q2Qc 0])) (Q2Qc 1))
    (mkCumulative (mkScripted 0 [] (draw [] 1%Q))).

(** ** Reading the statements *)

(** The sign a call applies to every shock. *)
Definition sign (antithetic : bool) : Real :=
  if antithetic then (- 1)%Qc else 1%Qc.

(** The per-step diffusions the bridge branch recovers from the cumulative
    bridge values [b]: [b0, b1 - b0, b2 - b1, ...]. *)
Fixpoint differences (previous : Real) (b : list Real) : list Real :=
  match b with
  | [] => []
  | x :: rest => (x - previous)%Qc :: differences x rest
  end.

Definition recovered_diffusions (b : list Real) : list Real :=
  match b with
  | [] => []
  | b0 :: rest => b0 :: differences b0 rest
  end.

Section Reading.

Context {GSG BB : Type}.
Context {generators : SequenceGenerator GSG}.
Context {bridges : BrownianBridge.Ops GSG BB}.

Implicit Types (pg : PathGenerator.t GSG BB) (path : Path.t).
Implicit Types (p : StochasticProcess1D) (g : TimeGrid.t).

(** The variate vector (with its weight) a call obtains. *)
Definition obtained (antithetic : bool) pg : Sample (list Real) :=
  if PathGenerator.brownianBridge_ pg
  then snd (PathGenerator.obtain_bridge antithetic pg)
  else snd (PathGenerator.obtain_direct antithetic pg).

(** The number of points of the stored grid. *)
Definition points pg : nat :=
  length (TimeGrid.times (PathGenerator.timeGrid_ pg)).

(** What a call needs from the collaborators to be defined: a process
    handle that is one-dimensional, a grid with a first point (and a first
    step, in the bridge branch), and a variate for every step. *)
Definition runs (antithetic : bool) pg : Prop :=
  is_Some (PathGenerator.process_ pg)
  /\ (if PathGenerator.brownianBridge_ pg then 2 else 1) <= points pg
  /\ points pg - 1 <= length (value (obtained antithetic pg)).

(** The state of an object between calls: the buffer has one slot per grid
    point and the stored dimension is the step count. *)
Definition consistent pg : Prop :=
  length (value (PathGenerator.next_ pg)) = points pg
  /\ PathGenerator.dimension_ pg
     = Size_minus_one (TimeGrid.size (PathGenerator.timeGrid_ pg)).

(** Objects that a constructor returned. *)
Inductive constructed : PathGenerator.t GSG BB -> Prop :=
  | constructed_uniform process length timeSteps generator brownianBridge pg :
      PathGenerator.make_uniform process length timeSteps generator
        brownianBridge = inr pg ->
      constructed pg
  | constructed_grid process timeGrid generator brownianBridge pg :
      PathGenerator.make_grid process timeGrid generator brownianBridge
        = inr pg ->
      constructed pg.

(** Objects in use: constructed, then put through any number of calls of
    [next()] and [antithetic()]. *)
Inductive in_use : PathGenerator.t GSG BB -> Prop :=
  | in_use_new pg : constructed pg -> in_use pg
  | in_use_call antithetic pg s pg' :
      in_use pg ->
      PathGenerator.next_bool antithetic pg = Some (s, pg') ->
      in_use pg'.

(** What the two loop bodies read outside the path: grid point [i-1], its
    step, and variate [i-1]. *)
Definition in_range g (v : list Real) (i : nat) : Prop :=
  S (i - 1) < length (TimeGrid.times g) /\ i - 1 < length v.

(** The value the direct branch writes in slot [i]. *)
Definition direct_value p g (v : list Real) (antithetic : bool)
    (i : nat) (prev x : Real) : Prop :=
  exists t dt z,
    TimeGrid.at_ g (i - 1) = Some t /\ TimeGrid.dt g (i - 1) = Some dt
    /\ v !! (i - 1) = Some z
    /\ x = evolve p t prev dt (PathGenerator.signed antithetic z).

(** The value the bridge branch writes in slot [i], from the diffusion [d]
    of that step. *)
Definition bridge_value p g (antithetic : bool) (d : Real)
    (i : nat) (prev x : Real) : Prop :=
  exists t dt,
    TimeGrid.at_ g (i - 1) = Some t /\ TimeGrid.dt g (i - 1) = Some dt
    /\ x = apply p (expectation p t prev dt) (PathGenerator.signed antithetic d).

(** The value the loop of the bridge branch writes in slot [i]. *)
Definition bridge_loop_value p g (v : list Real) (antithetic : bool)
    (i : nat) (prev x : Real) : Prop :=
  exists hi lo,
    v !! (i - 1) = Some hi /\ v !! (i - 2) = Some lo
    /\ bridge_value p g antithetic (hi - lo)%Qc i prev x.

(** *** A call followed by its antithetic counterpart *)

(** The collaborator a call draws from retains its fresh draw: what
    [lastSequence()] (or the bridge's [last()]) returns after a fresh draw
    is that draw. *)
Definition retains_draw pg : Prop :=
  if PathGenerator.brownianBridge_ pg
  then BrownianBridge.last (fst (BrownianBridge.next (PathGenerator.bb_ pg)))
       = snd (BrownianBridge.next (PathGenerator.bb_ pg))
  else lastSequence (fst (nextSequence (PathGenerator.generator_ pg)))
       = snd (nextSequence (PathGenerator.generator_ pg)).

(** The object with another content of its buffer [next_].  A freshly
    allocated path holds no specified values, and a used one holds the
    previous path. *)
Definition with_buffer pg (buffer : Sample Path.t) : PathGenerator.t GSG BB :=
  PathGenerator.mk (PathGenerator.brownianBridge_ pg)
    (PathGenerator.generator_ pg) (PathGenerator.dimension_ pg)
    (PathGenerator.timeGrid_ pg) (PathGenerator.process_ pg) buffer
    (PathGenerator.bb_ pg).

(** *** The claims as the specification words them, where the code differs *)

(** C2 as worded: every step of a direct-mode path applies the signed
    variate to the expectation. *)
Definition steps_apply_to_expectation (antithetic : bool) pg p
    (s : Sample Path.t) : Prop :=
  forall i, 1 <= i <= N.to_nat (PathGenerator.size pg) ->
    exists t dt prev z,
      TimeGrid.at_ (PathGenerator.timeGrid pg) (i - 1) = Some t
      /\ TimeGrid.dt (PathGenerator.timeGrid pg) (i - 1) = Some dt
      /\ value s !! (i - 1) = Some prev
      /\ value (obtained antithetic pg) !! (i - 1) = Some z
      /\ value s !! i
         = Some (apply p (expectation p t prev dt) (sign antithetic * z)%Qc).


End Reading.

(** *** Reading the error message *)

(** The characters [operator<<] prints a [Size] with. *)
Definition digit (c : Ascii.ascii) : bool :=
  match uint_of_char c (Some Decimal.Nil) with
  | Some _ => true
  | None => false
  end.

Fixpoint digits (s : string) : bool :=
  match s with
  | EmptyString => true
  | String c rest => digit c && digits rest
  end.

(** *** Sequences of calls *)

Section Calls.

Context {GSG BB : Type}.
Context {generators : SequenceGenerator GSG}.
Context {bridges : BrownianBridge.Ops GSG BB}.

(** A caller's sequence of calls, [false] for [next()] and [true] for
    [antithetic()], run in order on the object; the samples are collected
    as they are returned. *)
Fixpoint run (script : list bool) (pg : PathGenerator.t GSG BB)
  : option (list (Sample Path.t) * PathGenerator.t GSG BB) :=
  match script with
  | [] => Some ([], pg)
  | antithetic :: rest =>
      '(s, pg') ← PathGenerator.next_bool antithetic pg;
      '(samples, pg'') ← run rest pg';
      Some (s :: samples, pg'')
  end.

(** The samples a script's [next()] calls returned, among all the samples
    it returned. *)
Fixpoint fresh_samples (script : list bool) (samples : list (Sample Path.t))
  : list (Sample Path.t) :=
  match script, samples with
  | antithetic :: rest, s :: more =>
      if antithetic then fresh_samples rest more
      else s :: fresh_samples rest more
  | _, _ => []
  end.

(** The number of [next()] calls of a script. *)
Definition fresh_calls (script : list bool) : nat :=
  length (List.filter negb script).

End Calls.

(** ** The class over binary64

    [Real] and [Time] are [double] in the source.  Module [Double] embeds
    the class a second time, line for line as above, over IEEE 754 binary64
    with rounding to nearest, for the statements that name decimal values
    or depend on how sums round. *)

(** The message of the dimension check, as above. *)
Abbreviation dimension_mismatch := PathGenerator.mismatch.

(** Decimal constants stand for the nearest [double]. *)
Set Warnings "-inexact-float".

Module Double.

Abbreviation Real := float.
Abbreviation Time := float.

(** [Sample<T>]: a value with its weight. *)
Record Sample (T : Type) := mkSample { value : T; weight : Real }.
Arguments mkSample {T} _ _.
Arguments value {T} _.
Arguments weight {T} _.

(** A [Size] as a [double], exact below 2^53. *)
Definition of_Size (n : N) : Real :=
  PrimFloat.of_uint63 (Uint63.of_Z (Z.of_N n)).

Module TimeGrid.

(** Modelled from the spec: TimeGrid, of ql/timegrid.hpp, is an ordered
    sequence of time points, exposing its size, indexed access and the
    per-step delta dt(i) = t[i+1] - t[i]. *)
Record t : Type := mk { times : list Time }.

Definition size (g : t) : Size := N.of_nat (length (times g)).

(** [timeGrid[i]] *)
Definition at_ (g : t) (i : nat) : option Time := times g !! i.

(** [timeGrid.dt(i)] *)
Definition dt (g : t) (i : nat) : option Time :=
  t0 ← times g !! i;
  t1 ← times g !! S i;
  Some (t1 - t0)%float.

(** Modelled from the spec: the constructor TimeGrid(length, timeSteps)
    builds the uniform grid of [timeSteps] subintervals of [0, length],
    that is the [timeSteps + 1] points [i * (length / timeSteps)]. *)
Definition uniform (length : Time) (timeSteps : Size) : t :=
  let dt := (length / of_Size timeSteps)%float in
  mk (map (fun i : nat => (of_Size (N.of_nat i) * dt)%float)
          (seq 0 (S (N.to_nat timeSteps)))).

End TimeGrid.

Module Path.

(** Modelled from the spec: Path, of ql/MonteCarlo/path.hpp, is an array
    of one real value per point of its time grid. *)
Abbreviation t := (list Real).

(** [Path(timeGrid)]: one slot per grid point, zero until a path is
    generated. *)
Definition make (g : TimeGrid.t) : t :=
  replicate (length (TimeGrid.times g)) 0%float.

(** [path[i] = x]: an in-place write, undefined out of range. *)
Definition set (path : t) (i : nat) (x : Real) : option t :=
  if decide (i < length path) then Some (<[i := x]> path) else None.

End Path.

(** The one-dimensional process capability. *)
Record StochasticProcess1D : Type := mkProcess1D {
  x0 : Real;
  expectation : Time -> Real -> Time -> Real;
  evolve : Time -> Real -> Time -> Real -> Real;
  apply : Real -> Real -> Real
}.

(** What a [shared_ptr<StochasticProcess>] can point to. *)
Inductive StochasticProcess : Type :=
  | OneDimensional (p : StochasticProcess1D)
  | NotOneDimensional.

(** [boost::dynamic_pointer_cast<StochasticProcess1D>] *)
Definition dynamic_pointer_cast (process : StochasticProcess)
  : option StochasticProcess1D :=
  match process with
  | OneDimensional p => Some p
  | NotOneDimensional => None
  end.

(** The template parameter [GSG]. *)
Class SequenceGenerator (GSG : Type) : Type := {
  dimension : GSG -> Size;
  nextSequence : GSG -> GSG * Sample (list Real);
  lastSequence : GSG -> Sample (list Real)
}.

Module BrownianBridge.

(** [BrownianBridge<GSG>] as PathGenerator consumes it. *)
Class Ops (GSG BB : Type) : Type := {
  make : option StochasticProcess1D -> TimeGrid.t -> GSG -> BB;
  next : BB -> BB * Sample (list Real);
  last : BB -> Sample (list Real)
}.

End BrownianBridge.

Module PathGenerator.

Section Class.

Context {GSG BB : Type}.
Context {generators : SequenceGenerator GSG}.
Context {bridges : BrownianBridge.Ops GSG BB}.

Record t : Type := mk {
  brownianBridge_ : bool;
  generator_ : GSG;
  dimension_ : Size;
  timeGrid_ : TimeGrid.t;
  process_ : option StochasticProcess1D;
  next_ : Sample Path.t;
  bb_ : BB
}.

(** Constructor (process, length, timeSteps, generator, brownianBridge). *)
Definition make_uniform (process : StochasticProcess) (length : Time)
    (timeSteps : Size) (generator : GSG) (brownianBridge : bool)
  : Error + t :=
  let generator_ := generator in
  let dimension_ := dimension generator_ in
  let timeGrid_ := TimeGrid.uniform length timeSteps in
  let process_ := dynamic_pointer_cast process in
  let next_ := mkSample (Path.make timeGrid_) 1%float in
  let bb_ := BrownianBridge.make process_ timeGrid_ generator_ in
  if (dimension_ =? timeSteps)%N
  then inr (mk brownianBridge generator_ dimension_ timeGrid_ process_
               next_ bb_)
  else inl (ConfigurationError (dimension_mismatch dimension_ timeSteps)).

(** Constructor (process, timeGrid, generator, brownianBridge). *)
Definition make_grid (process : StochasticProcess) (timeGrid : TimeGrid.t)
    (generator : GSG) (brownianBridge : bool) : Error + t :=
  let generator_ := generator in
  let dimension_ := dimension generator_ in
  let timeGrid_ := timeGrid in
  let process_ := dynamic_pointer_cast process in
  let next_ := mkSample (Path.make timeGrid_) 1%float in
  let bb_ := BrownianBridge.make process_ timeGrid_ generator_ in
  if (dimension_ =? Size_minus_one (TimeGrid.size timeGrid_))%N
  then inr (mk brownianBridge generator_ dimension_ timeGrid_ process_
               next_ bb_)
  else inl (ConfigurationError
              (dimension_mismatch dimension_
                 (Size_minus_one (TimeGrid.size timeGrid_)))).

Definition size (pg : t) : Size := dimension_ pg.
Definition timeGrid (pg : t) : TimeGrid.t := timeGrid_ pg.

(** [antithetic ? -x : x] *)
Definition signed (antithetic : bool) (x : Real) : Real :=
  if antithetic then (- x)%float else x.

(** Body of the loop of the bridge branch, at index [i]. *)
Definition bridge_step (p : StochasticProcess1D) (g : TimeGrid.t)
    (stdDev : list Real) (antithetic : bool) (i : nat) (path : Path.t)
  : option Path.t :=
  t ← TimeGrid.at_ g (i - 1);
  dt ← TimeGrid.dt g (i - 1);
  hi ← stdDev !! (i - 1);
  lo ← stdDev !! (i - 2);
  let diffusion := (hi - lo)%float in
  prev ← path !! (i - 1);
  Path.set path i
    (apply p (expectation p t prev dt) (signed antithetic diffusion)).

(** Body of the loop of the direct branch, at index [i]. *)
Definition direct_step (p : StochasticProcess1D) (g : TimeGrid.t)
    (sequence : list Real) (antithetic : bool) (i : nat) (path : Path.t)
  : option Path.t :=
  t ← TimeGrid.at_ g (i - 1);
  dt ← TimeGrid.dt g (i - 1);
  prev ← path !! (i - 1);
  z ← sequence !! (i - 1);
  Path.set path i (evolve p t prev dt (signed antithetic z)).

(** [bb_.last()] or [bb_.next()] *)
Definition obtain_bridge (antithetic : bool) (pg : t)
  : BB * Sample (list Real) :=
  if antithetic then (bb_ pg, BrownianBridge.last (bb_ pg))
  else BrownianBridge.next (bb_ pg).

(** [generator_.lastSequence()] or [generator_.nextSequence()] *)
Definition obtain_direct (antithetic : bool) (pg : t)
  : GSG * Sample (list Real) :=
  if antithetic then (generator_ pg, lastSequence (generator_ pg))
  else nextSequence (generator_ pg).

(** [next(bool antithetic)] *)
Definition next_bool (antithetic : bool) (pg : t) : option (Sample Path.t * t) :=
  if brownianBridge_ pg then
    let '(bb', stdDev_) := obtain_bridge antithetic pg in
    let w := weight stdDev_ in
    p ← process_ pg;
    path ← Path.set (value (next_ pg)) 0 (x0 p);
    t ← TimeGrid.at_ (timeGrid_ pg) 0;
    dt ← TimeGrid.dt (timeGrid_ pg) 0;
    diffusion ← value stdDev_ !! 0;
    front ← path !! 0;
    path ← Path.set path 1
             (apply p (expectation p t front dt)
                (signed antithetic diffusion));
    path ← for_loop 2 (length path)
             (bridge_step p (timeGrid_ pg) (value stdDev_) antithetic)
             path;
    let result := mkSample path w in
    Some (result,
          mk (brownianBridge_ pg) (generator_ pg) (dimension_ pg)
             (timeGrid_ pg) (process_ pg) result bb')
  else
    let '(generator', sequence_) := obtain_direct antithetic pg in
    let w := weight sequence_ in
    p ← process_ pg;
    path ← Path.set (value (next_ pg)) 0 (x0 p);
    path ← for_loop 1 (length path)
             (direct_step p (timeGrid_ pg) (value sequence_) antithetic)
             path;
    let result := mkSample path w in
    Some (result,
          mk (brownianBridge_ pg) generator' (dimension_ pg)
             (timeGrid_ pg) (process_ pg) result (bb_ pg)).

Definition next (pg : t) : option (Sample Path.t * t) :=
  next_bool false pg.

Definition antithetic (pg : t) : option (Sample Path.t * t) :=
  next_bool true pg.

End Class.

Arguments t : clear implicits.

End PathGenerator.

(** *** Concrete collaborators and explicit inputs *)

(** A generator that replays a script of draws and retains the latest. *)
Record ScriptedGenerator : Type := mkScripted {
  scripted_dimension : Size;
  pending : list (Sample (list Real));
  latest : Sample (list Real)
}.

Definition scripted_next (g : ScriptedGenerator)
  : ScriptedGenerator * Sample (list Real) :=
  match pending g with
  | [] => (g, latest g)
  | s :: rest => (mkScripted (scripted_dimension g) rest s, s)
  end.

#[export] Instance scripted_generator : SequenceGenerator ScriptedGenerator := {|
  dimension := scripted_dimension;
  nextSequence := scripted_next;
  lastSequence := latest
|}.

(** A bridge that keeps a generator of its own and hands out its draws as
    they are, as the cumulative values. *)
Record PassingBridge (GSG : Type) : Type := mkPassing { source : GSG }.
Arguments mkPassing {GSG} _.
Arguments source {GSG} _.

#[export] Instance passing_bridge {GSG : Type} `{!SequenceGenerator GSG}
  : BrownianBridge.Ops GSG (PassingBridge GSG) := {|
  BrownianBridge.make _ _ generator := mkPassing generator;
  BrownianBridge.next b :=
    let '(g', s) := nextSequence (source b) in (mkPassing g', s);
  BrownianBridge.last b := lastSequence (source b)
|}.

Abbreviation Bridge := (PassingBridge ScriptedGenerator).

(** An additive process with the given initial value, drift-free
    expectation and a step deviation [stdDeviation t x dt] scaling the
    shock in [evolve]. *)
Definition additive_process (start : Real)
    (stdDeviation : Time -> Real -> Time -> Real) : StochasticProcess1D :=
  {| x0 := start;
     expectation := fun _ x _ => x;
     evolve := fun t x dt dw => (x + stdDeviation t x dt * dw)%float;
     apply := fun mean shock => (mean + shock)%float |}.

(** Driftless additive processes: [evolve] adds the shock as it is, scaled
    by the step, or scaled by a hundredth of the state. *)
Definition plain_process (start : Real) : StochasticProcess1D :=
  {| x0 := start;
     expectation := fun _ x _ => x;
     evolve := fun _ x _ dw => (x + dw)%float;
     apply := fun mean shock => (mean + shock)%float |}.

Definition step_scaled_process (start : Real) : StochasticProcess1D :=
  additive_process start (fun _ _ dt => dt).

Definition state_scaled_process (start : Real) : StochasticProcess1D :=
  additive_process start (fun _ x _ => (x / 100)%float).

Definition draw (v : list Real) (w : Real) : Sample (list Real) :=
  mkSample v w.

(** A generator of dimension 2 about to draw [0.1, -0.2] with weight 1. *)
Definition two_draws : ScriptedGenerator :=
  mkScripted 2 [draw [0.1; -0.2]%float 1%float] (draw [] 0%float).

(** A generator of dimension 1 about to draw [0.1] with weight 1. *)
Definition one_draw : ScriptedGenerator :=
  mkScripted 1 [draw [0.1]%float 1%float] (draw [] 0%float).

(** A generator of dimension 2 about to draw [0.1, 0.7] with weight 1, the
    cumulative values [PassingBridge] hands out. *)
Definition cumulative_values : ScriptedGenerator :=
  mkScripted 2 [draw [0.1; 0.7]%float 1%float] (draw [] 0%float).

(** The grid of the single step from 0 to 1. *)
Definition one_step : TimeGrid.t := TimeGrid.mk [0; 1]%float.

(** *** Reading the statements *)

(** [apply(mean, shock) = mean + shock] *)
Definition additive (p : StochasticProcess1D) : Prop :=
  forall mean shock : Real, apply p mean shock = (mean + shock)%float.

(** The distance of a path element [x] from its step expectation, [x]
    being reached from [prev] on the step from [t] of length [dt]. *)
Definition deviation (p : StochasticProcess1D) (t prev dt x : Real) : Real :=
  (x - expectation p t prev dt)%float.

(** C6 as worded: at step [i], the antithetic path lies as far from its
    step expectation as the direct path lies from its own, on the other
    side. *)
Definition mirrored (p : StochasticProcess1D) (g : TimeGrid.t)
    (direct anti : Path.t) (i : nat) : Prop :=
  exists t dt prev prev' x x',
    TimeGrid.at_ g (i - 1) = Some t /\ TimeGrid.dt g (i - 1) = Some dt
    /\ direct !! (i - 1) = Some prev /\ anti !! (i - 1) = Some prev'
    /\ direct !! i = Some x /\ anti !! i = Some x'
    /\ deviation p t prev' dt x' = (- deviation p t prev dt x)%float.

End Double.

(** ** Properties of the embedding *)

Section Properties.

Context {GSG BB : Type}.
Context {generators : SequenceGenerator GSG}.
Context {bridges : BrownianBridge.Ops GSG BB}.

Implicit Types (pg : PathGenerator.t GSG BB) (path : Path.t).
Implicit Types (p : StochasticProcess1D) (g : TimeGrid.t).

(** *** Arithmetic and array helpers *)

Lemma signed_sign antithetic (x : Real) :
  PathGenerator.signed antithetic x = (sign antithetic * x)%Qc.
Proof. destruct antithetic; unfold PathGenerator.signed, sign; ring. Qed.

Lemma signed_opp (x : Real) :
  PathGenerator.signed true x = (- PathGenerator.signed false x)%Qc.
Proof. reflexivity. Qed.

Lemma Size_minus_one_of_nat (n : nat) :
  1 <= n -> N.to_nat (Size_minus_one (N.of_nat n)) = n - 1.
Proof.
  intros Hn. unfold Size_minus_one.
  destruct (N.eqb_spec (N.of_nat n) 0) as [E|E]; lia.
Qed.

Lemma Path_set_Some path i x path' :
  Path.set path i x = Some path' <-> i < length path /\ path' = <[i := x]> path.
Proof.
  unfold Path.set. case_decide; split.
  - intros [= <-]. done.
  - intros [_ ->]. done.
  - done.
  - intros [? _]. lia.
Qed.

Lemma Path_set_lt path i x :
  i < length path -> Path.set path i x = Some (<[i := x]> path).
Proof. intros Hlt. unfold Path.set. by rewrite decide_True. Qed.

Lemma Path_make_length g : length (Path.make g) = length (TimeGrid.times g).
Proof. unfold Path.make. apply length_replicate. Qed.

Lemma grid_at_is_Some g i :
  is_Some (TimeGrid.at_ g i) <-> i < length (TimeGrid.times g).
Proof. unfold TimeGrid.at_. apply lookup_lt_is_Some. Qed.

Lemma grid_dt_is_Some g i :
  is_Some (TimeGrid.dt g i) <-> S i < length (TimeGrid.times g).
Proof.
  unfold TimeGrid.dt. split.
  - intros [d Hd]. apply bind_Some in Hd as (a & Ha & Hd).
    apply bind_Some in Hd as (b & Hb & _).
    by apply lookup_lt_Some in Hb.
  - intros Hlt.
    destruct (lookup_lt_is_Some_2 (TimeGrid.times g) i) as [a Ha]; [lia|].
    destruct (lookup_lt_is_Some_2 (TimeGrid.times g) (S i)) as [b Hb]; [lia|].
    rewrite Ha, Hb. by eexists.
Qed.

(** *** The loops *)

Section Loop.

(** [step i prev x]: at index [i], with [prev] in slot [i-1], the body
    writes [x] in slot [i]; [ready i]: everything the body reads outside
    the path is in range. *)
Variable body : nat -> Path.t -> option Path.t.
Variable step : nat -> Real -> Real -> Prop.
Variable ready : nat -> Prop.

Hypothesis body_writes : forall i path path',
  body i path = Some path' ->
  i < length path /\ ready i
  /\ exists prev x, path !! (i - 1) = Some prev /\ step i prev x
                    /\ path' = <[i := x]> path.

Hypothesis body_defined : forall i path,
  1 <= i -> i < length path -> ready i -> is_Some (body i path).

Lemma for_each_seq_writes n : forall lo path path',
  1 <= lo ->
  for_each body (seq lo n) path = Some path' ->
  length path' = length path
  /\ (forall j, j < lo -> path' !! j = path !! j)
  /\ (forall i, lo <= i < lo + n ->
        i < length path /\ ready i
        /\ exists prev x, path' !! (i - 1) = Some prev
                          /\ path' !! i = Some x /\ step i prev x).
Proof.
  induction n as [|n IH]; intros lo path path' Hlo Hrun; simpl in Hrun.
  - injection Hrun as <-. repeat split; intros; lia.
  - apply bind_Some in Hrun as (mid & Hbody & Hrest).
    apply body_writes in Hbody as (Hlt & Hready & prev & x & Hprev & Hstep & ->).
    apply IH in Hrest as (Hlen & Hlow & Hhigh); [|lia].
    rewrite length_insert in Hlen, Hhigh.
    split; [done|]. split.
    + intros j Hj. rewrite Hlow by lia. apply list_lookup_insert_ne. lia.
    + intros i Hi. destruct (decide (i = lo)) as [->|Hne].
      * split; [done|]. split; [done|]. exists prev, x.
        rewrite !Hlow by lia.
        rewrite list_lookup_insert_ne by lia.
        rewrite list_lookup_insert_eq by lia. done.
      * apply Hhigh. lia.
Qed.

Lemma for_each_seq_defined n : forall lo path,
  1 <= lo -> lo + n <= length path ->
  (forall i, lo <= i < lo + n -> ready i) ->
  is_Some (for_each body (seq lo n) path).
Proof.
  induction n as [|n IH]; intros lo path Hlo Hlen Hready; simpl.
  - by eexists.
  - destruct (body_defined lo path) as [mid Hmid]; [lia|lia|apply Hready; lia|].
    rewrite Hmid. simpl.
    apply body_writes in Hmid as (_ & _ & prev & x & _ & _ & ->).
    apply IH; [lia| |].
    + rewrite length_insert. lia.
    + intros i Hi. apply Hready. lia.
Qed.

End Loop.

Lemma direct_step_writes p g v antithetic i path path' :
  PathGenerator.direct_step p g v antithetic i path = Some path' ->
  i < length path /\ in_range g v i
  /\ exists prev x, path !! (i - 1) = Some prev
       /\ direct_value p g v antithetic i prev x /\ path' = <[i := x]> path.
Proof.
  unfold PathGenerator.direct_step. intros Hrun.
  apply bind_Some in Hrun as (t & Ht & Hrun).
  apply bind_Some in Hrun as (dt & Hdt & Hrun).
  apply bind_Some in Hrun as (prev & Hprev & Hrun).
  apply bind_Some in Hrun as (z & Hz & Hrun).
  apply Path_set_Some in Hrun as [Hlt ->].
  split; [done|]. split.
  - split; [apply grid_dt_is_Some; eauto | by apply lookup_lt_Some in Hz].
  - exists prev. eexists. split; [done|]. split; [|done].
    exists t, dt, z. done.
Qed.

Lemma direct_step_defined p g v antithetic i path :
  1 <= i -> i < length path -> in_range g v i ->
  is_Some (PathGenerator.direct_step p g v antithetic i path).
Proof.
  intros Hi Hlt [Hg Hv]. unfold PathGenerator.direct_step.
  destruct (proj2 (grid_at_is_Some g (i - 1))) as [t ->]; [lia|].
  destruct (proj2 (grid_dt_is_Some g (i - 1))) as [dt ->]; [lia|].
  destruct (lookup_lt_is_Some_2 path (i - 1)) as [prev ->]; [lia|].
  destruct (lookup_lt_is_Some_2 v (i - 1)) as [z ->]; [lia|].
  simpl. rewrite Path_set_lt by done. by eexists.
Qed.

Lemma bridge_step_writes p g v antithetic i path path' :
  PathGenerator.bridge_step p g v antithetic i path = Some path' ->
  i < length path /\ in_range g v i
  /\ exists prev x, path !! (i - 1) = Some prev
       /\ bridge_loop_value p g v antithetic i prev x
       /\ path' = <[i := x]> path.
Proof.
  unfold PathGenerator.bridge_step. intros Hrun.
  apply bind_Some in Hrun as (t & Ht & Hrun).
  apply bind_Some in Hrun as (dt & Hdt & Hrun).
  apply bind_Some in Hrun as (hi & Hhi & Hrun).
  apply bind_Some in Hrun as (lo & Hlo & Hrun).
  apply bind_Some in Hrun as (prev & Hprev & Hrun).
  apply Path_set_Some in Hrun as [Hlt ->].
  split; [done|]. split.
  - split; [apply grid_dt_is_Some; eauto | by apply lookup_lt_Some in Hhi].
  - exists prev. eexists. split; [done|]. split; [|done].
    exists hi, lo. split; [done|]. split; [done|]. exists t, dt. done.
Qed.

Lemma bridge_step_defined p g v antithetic i path :
  1 <= i -> i < length path -> in_range g v i ->
  is_Some (PathGenerator.bridge_step p g v antithetic i path).
Proof.
  intros Hi Hlt [Hg Hv]. unfold PathGenerator.bridge_step.
  destruct (proj2 (grid_at_is_Some g (i - 1))) as [t ->]; [lia|].
  destruct (proj2 (grid_dt_is_Some g (i - 1))) as [dt ->]; [lia|].
  destruct (lookup_lt_is_Some_2 v (i - 1)) as [hi ->]; [lia|].
  destruct (lookup_lt_is_Some_2 v (i - 2)) as [lo ->]; [lia|].
  destruct (lookup_lt_is_Some_2 path (i - 1)) as [prev ->]; [lia|].
  simpl. rewrite Path_set_lt by done. by eexists.
Qed.

Lemma differences_lookup (b : list Real) : forall previous k hi lo,
  b !! S k = Some hi -> b !! k = Some lo ->
  differences previous b !! S k = Some (hi - lo)%Qc.
Proof.
  induction b as [|x b IH]; intros previous k hi lo Hhi Hlo; [done|].
  destruct k as [|k]; simpl in *.
  - destruct b as [|y b]; [done|]. simpl in *. congruence.
  - by apply IH.
Qed.

Lemma recovered_diffusions_first (b : list Real) :
  recovered_diffusions b !! 0 = b !! 0.
Proof. by destruct b. Qed.

Lemma recovered_diffusions_later (b : list Real) k hi lo :
  b !! S k = Some hi -> b !! k = Some lo ->
  recovered_diffusions b !! S k = Some (hi - lo)%Qc.
Proof.
  destruct b as [|b0 rest]; [done|]. simpl. intros Hhi Hlo.
  destruct k as [|k]; simpl in *.
  - destruct rest as [|y rest]; [done|]. simpl in *. congruence.
  - by apply differences_lookup.
Qed.

(** *** One call, branch by branch *)

Lemma next_bool_direct antithetic pg s pg' :
  PathGenerator.brownianBridge_ pg = false ->
  PathGenerator.next_bool antithetic pg = Some (s, pg') ->
  exists p,
    PathGenerator.process_ pg = Some p
    /\ pg' = PathGenerator.mk false
               (fst (PathGenerator.obtain_direct antithetic pg))
               (PathGenerator.dimension_ pg) (PathGenerator.timeGrid_ pg)
               (PathGenerator.process_ pg) s (PathGenerator.bb_ pg)
    /\ weight s = weight (obtained antithetic pg)
    /\ length (value s) = length (value (PathGenerator.next_ pg))
    /\ value s !! 0 = Some (x0 p)
    /\ forall i, 1 <= i < length (value s) ->
         in_range (PathGenerator.timeGrid_ pg)
           (value (obtained antithetic pg)) i
         /\ exists prev x,
              value s !! (i - 1) = Some prev /\ value s !! i = Some x
              /\ direct_value p (PathGenerator.timeGrid_ pg)
                   (value (obtained antithetic pg)) antithetic i prev x.
Proof.
  intros Hmode Hrun. unfold obtained. rewrite Hmode.
  unfold PathGenerator.next_bool in Hrun. rewrite Hmode in Hrun.
  destruct (PathGenerator.obtain_direct antithetic pg) as [g' sequence_].
  apply bind_Some in Hrun as (p & Hp & Hrun).
  apply bind_Some in Hrun as (path0 & Hset & Hrun).
  apply bind_Some in Hrun as (path & Hloop & Hrun).
  injection Hrun as <- <-.
  apply Path_set_Some in Hset as [Hlt ->].
  unfold for_loop in Hloop. rewrite length_insert in Hloop.
  eapply (for_each_seq_writes _ _ _ (direct_step_writes _ _ _ _)) in Hloop
    as (Hlen & Hlow & Hhigh); [|lia].
  rewrite length_insert in Hlen, Hhigh.
  exists p. simpl.
  split; [done|]. split; [done|]. split; [done|]. split; [done|]. split.
  - rewrite Hlow by lia. by apply list_lookup_insert_eq.
  - intros i Hi. apply Hhigh. lia.
Qed.

Lemma next_bool_direct_defined antithetic pg :
  PathGenerator.brownianBridge_ pg = false ->
  is_Some (PathGenerator.process_ pg) ->
  1 <= length (value (PathGenerator.next_ pg)) ->
  (forall i, 1 <= i < length (value (PathGenerator.next_ pg)) ->
     in_range (PathGenerator.timeGrid_ pg)
       (value (obtained antithetic pg)) i) ->
  is_Some (PathGenerator.next_bool antithetic pg).
Proof.
  intros Hmode [p Hp] Hlen Hready. unfold obtained in Hready.
  rewrite Hmode in Hready.
  unfold PathGenerator.next_bool. rewrite Hmode.
  destruct (PathGenerator.obtain_direct antithetic pg) as [g' sequence_].
  rewrite Hp. simpl. rewrite Path_set_lt by lia. simpl.
  unfold for_loop. rewrite length_insert.
  edestruct (for_each_seq_defined _ _ _ (direct_step_writes _ _ _ _)
               (direct_step_defined p (PathGenerator.timeGrid_ pg)
                  (value sequence_) antithetic)
               (length (value (PathGenerator.next_ pg)) - 1) 1
               (<[0 := x0 p]> (value (PathGenerator.next_ pg))))
    as [path Hpath].
  - lia.
  - rewrite length_insert. lia.
  - intros i Hi. apply Hready. lia.
  - rewrite Hpath. by eexists.
Qed.

Lemma next_bool_bridge antithetic pg s pg' :
  PathGenerator.brownianBridge_ pg = true ->
  PathGenerator.next_bool antithetic pg = Some (s, pg') ->
  exists p,
    PathGenerator.process_ pg = Some p
    /\ pg' = PathGenerator.mk true (PathGenerator.generator_ pg)
               (PathGenerator.dimension_ pg) (PathGenerator.timeGrid_ pg)
               (PathGenerator.process_ pg) s
               (fst (PathGenerator.obtain_bridge antithetic pg))
    /\ weight s = weight (obtained antithetic pg)
    /\ length (value s) = length (value (PathGenerator.next_ pg))
    /\ 2 <= length (value s)
    /\ value s !! 0 = Some (x0 p)
    /\ forall i, 1 <= i < length (value s) ->
         in_range (PathGenerator.timeGrid_ pg)
           (value (obtained antithetic pg)) i
         /\ exists prev x d,
              value s !! (i - 1) = Some prev /\ value s !! i = Some x
              /\ recovered_diffusions (value (obtained antithetic pg))
                   !! (i - 1) = Some d
              /\ bridge_value p (PathGenerator.timeGrid_ pg) antithetic d
                   i prev x.
Proof.
  intros Hmode Hrun. unfold obtained. rewrite Hmode.
  unfold PathGenerator.next_bool in Hrun. rewrite Hmode in Hrun.
  destruct (PathGenerator.obtain_bridge antithetic pg) as [bb' stdDev_].
  apply bind_Some in Hrun as (p & Hp & Hrun).
  apply bind_Some in Hrun as (path0 & Hset0 & Hrun).
  apply bind_Some in Hrun as (t & Ht & Hrun).
  apply bind_Some in Hrun as (dt & Hdt & Hrun).
  apply bind_Some in Hrun as (b0 & Hb0 & Hrun).
  apply bind_Some in Hrun as (front & Hfront & Hrun).
  apply bind_Some in Hrun as (path1 & Hset1 & Hrun).
  apply bind_Some in Hrun as (path & Hloop & Hrun).
  injection Hrun as <- <-.
  apply Path_set_Some in Hset0 as [Hlt0 ->].
  apply Path_set_Some in Hset1 as [Hlt1 ->].
  rewrite length_insert in Hlt1.
  rewrite list_lookup_insert_eq in Hfront by done.
  injection Hfront as <-.
  unfold for_loop in Hloop. rewrite !length_insert in Hloop.
  eapply (for_each_seq_writes _ _ _ (bridge_step_writes _ _ _ _)) in Hloop
    as (Hlen & Hlow & Hhigh); [|lia].
  rewrite !length_insert in Hlen, Hhigh.
  assert (H0 : path !! 0 = Some (x0 p)).
  { rewrite Hlow by lia. rewrite list_lookup_insert_ne by lia.
    by apply list_lookup_insert_eq. }
  assert (H1 : path !! 1
               = Some (apply p (expectation p t (x0 p) dt)
                         (PathGenerator.signed antithetic b0))).
  { rewrite Hlow by lia. apply list_lookup_insert_eq.
    by rewrite length_insert. }
  exists p. simpl.
  split; [done|]. split; [done|]. split; [done|]. split; [done|].
  split; [lia|]. split; [done|].
  intros i Hi. destruct (decide (i = 1)) as [->|Hne].
  - split.
    + split; [apply grid_dt_is_Some; eauto | by apply lookup_lt_Some in Hb0].
    + exists (x0 p). eexists. exists b0. simpl.
      split; [done|]. split; [exact H1|].
      split; [by rewrite recovered_diffusions_first|].
      exists t, dt. done.
  - destruct (Hhigh i) as (_ & Hready & prev & x & Hprev & Hx & Hval); [lia|].
    split; [done|].
    destruct Hval as (hi & lo & Hhi & Hlo & Hval).
    exists prev, x, (hi - lo)%Qc. split; [done|]. split; [done|].
    split; [|done].
    replace (i - 1) with (S (i - 2)) in * by lia.
    by apply recovered_diffusions_later.
Qed.

Lemma next_bool_bridge_defined antithetic pg :
  PathGenerator.brownianBridge_ pg = true ->
  is_Some (PathGenerator.process_ pg) ->
  2 <= length (value (PathGenerator.next_ pg)) ->
  (forall i, 1 <= i < length (value (PathGenerator.next_ pg)) ->
     in_range (PathGenerator.timeGrid_ pg)
       (value (obtained antithetic pg)) i) ->
  is_Some (PathGenerator.next_bool antithetic pg).
Proof.
  intros Hmode [p Hp] Hlen Hready. unfold obtained in Hready.
  rewrite Hmode in Hready.
  unfold PathGenerator.next_bool. rewrite Hmode.
  destruct (PathGenerator.obtain_bridge antithetic pg) as [bb' stdDev_].
  simpl in Hready. destruct (Hready 1) as [Hg Hv]; [lia|]. simpl in Hg, Hv.
  rewrite Hp. simpl. rewrite Path_set_lt by lia. simpl.
  destruct (proj2 (grid_at_is_Some (PathGenerator.timeGrid_ pg) 0))
    as [t ->]; [lia|].
  destruct (proj2 (grid_dt_is_Some (PathGenerator.timeGrid_ pg) 0))
    as [dt ->]; [lia|].
  destruct (lookup_lt_is_Some_2 (value stdDev_) 0) as [b0 ->]; [lia|].
  simpl. rewrite list_lookup_insert_eq by lia. simpl.
  rewrite Path_set_lt by (rewrite length_insert; lia). simpl.
  unfold for_loop. rewrite !length_insert.
  edestruct (for_each_seq_defined _ _ _ (bridge_step_writes _ _ _ _)
               (bridge_step_defined p (PathGenerator.timeGrid_ pg)
                  (value stdDev_) antithetic)
               (length (value (PathGenerator.next_ pg)) - 2) 2)
    as [path Hpath]; [| | |rewrite Hpath; by eexists].
  - lia.
  - rewrite !length_insert. lia.
  - intros i Hi. apply Hready. lia.
Qed.

(** *** Construction and what calls preserve *)

Lemma uniform_points (length : Time) (timeSteps : Size) :
  List.length (TimeGrid.times (TimeGrid.uniform length timeSteps))
  = S (N.to_nat timeSteps).
Proof. unfold TimeGrid.uniform. simpl. by rewrite length_map, length_seq. Qed.

Lemma uniform_steps (length : Time) (timeSteps : Size) :
  Size_minus_one (TimeGrid.size (TimeGrid.uniform length timeSteps))
  = timeSteps.
Proof.
  unfold TimeGrid.size. rewrite uniform_points. unfold Size_minus_one.
  destruct (N.eqb_spec (N.of_nat (S (N.to_nat timeSteps))) 0); lia.
Qed.

Lemma make_uniform_inr process length timeSteps generator brownianBridge pg :
  PathGenerator.make_uniform process length timeSteps generator
    brownianBridge = inr pg ->
  dimension generator = timeSteps
  /\ pg = PathGenerator.mk brownianBridge generator (dimension generator)
            (TimeGrid.uniform length timeSteps)
            (dynamic_pointer_cast process)
            (mkSample (Path.make (TimeGrid.uniform length timeSteps))
               (Q2Qc 1))
            (BrownianBridge.make (dynamic_pointer_cast process)
               (TimeGrid.uniform length timeSteps) generator).
Proof.
  unfold PathGenerator.make_uniform.
  destruct (N.eqb_spec (dimension generator) timeSteps) as [E|E]; [|done].
  intros [= <-]. done.
Qed.

Lemma make_grid_inr process timeGrid generator brownianBridge pg :
  PathGenerator.make_grid process timeGrid generator brownianBridge
    = inr pg ->
  dimension generator = Size_minus_one (TimeGrid.size timeGrid)
  /\ pg = PathGenerator.mk brownianBridge generator (dimension generator)
            timeGrid (dynamic_pointer_cast process)
            (mkSample (Path.make timeGrid) (Q2Qc 1))
            (BrownianBridge.make (dynamic_pointer_cast process) timeGrid
               generator).
Proof.
  unfold PathGenerator.make_grid.
  destruct (N.eqb_spec (dimension generator)
              (Size_minus_one (TimeGrid.size timeGrid))) as [E|E]; [|done].
  intros [= <-]. done.
Qed.

Lemma constructed_consistent pg : constructed pg -> consistent pg.
Proof.
  intros [process length timeSteps generator brownianBridge pg' Hmake
         |process timeGrid generator brownianBridge pg' Hmake].
  - apply make_uniform_inr in Hmake as [Hdim ->]. unfold consistent, points.
    cbn [PathGenerator.next_ PathGenerator.timeGrid_ PathGenerator.dimension_
         value].
    split; [apply Path_make_length|]. by rewrite uniform_steps.
  - apply make_grid_inr in Hmake as [Hdim ->]. unfold consistent, points.
    cbn [PathGenerator.next_ PathGenerator.timeGrid_ PathGenerator.dimension_
         value].
    split; [apply Path_make_length|done].
Qed.

(** A call changes the buffer and the state of the collaborator it draws
    from, and nothing else. *)
Lemma next_bool_frame antithetic pg s pg' :
  PathGenerator.next_bool antithetic pg = Some (s, pg') ->
  PathGenerator.brownianBridge_ pg' = PathGenerator.brownianBridge_ pg
  /\ PathGenerator.dimension_ pg' = PathGenerator.dimension_ pg
  /\ PathGenerator.timeGrid_ pg' = PathGenerator.timeGrid_ pg
  /\ PathGenerator.process_ pg' = PathGenerator.process_ pg
  /\ PathGenerator.next_ pg' = s
  /\ length (value s) = length (value (PathGenerator.next_ pg)).
Proof.
  intros Hrun. destruct (PathGenerator.brownianBridge_ pg) eqn:Hmode.
  - apply next_bool_bridge in Hrun as (p & _ & -> & _ & Hlen & _); [|done].
    done.
  - apply next_bool_direct in Hrun as (p & _ & -> & _ & Hlen & _); [|done].
    done.
Qed.

Lemma next_bool_consistent antithetic pg s pg' :
  consistent pg ->
  PathGenerator.next_bool antithetic pg = Some (s, pg') ->
  consistent pg'.
Proof.
  intros [Hbuf Hdim] Hrun.
  apply next_bool_frame in Hrun as (_ & Hd & Hg & _ & Hs & Hlen).
  unfold consistent, points. rewrite Hd, Hg, Hs. split; [|done].
  rewrite Hlen. exact Hbuf.
Qed.

Lemma in_use_consistent pg : in_use pg -> consistent pg.
Proof.
  induction 1 as [pg Hnew|antithetic pg s pg' _ IH Hrun].
  - by apply constructed_consistent.
  - by eapply next_bool_consistent.
Qed.

(** [runs] is exactly what makes a call defined. *)
Lemma next_bool_runs antithetic pg :
  consistent pg ->
  is_Some (PathGenerator.next_bool antithetic pg) <-> runs antithetic pg.
Proof.
  intros [Hbuf _]. unfold runs. split.
  - intros [[s pg'] Hrun].
    destruct (PathGenerator.brownianBridge_ pg) eqn:Hmode.
    + apply next_bool_bridge in Hrun
        as (p & Hp & _ & _ & Hlen & Htwo & _ & Hsteps); [|done].
      rewrite Hbuf in Hlen. split; [by eexists|]. split; [lia|].
      destruct (Hsteps (points pg - 1)) as [[_ Hv] _]; lia.
    + apply next_bool_direct in Hrun
        as (p & Hp & _ & _ & Hlen & Hfront & Hsteps); [|done].
      apply lookup_lt_Some in Hfront.
      rewrite Hbuf in Hlen. split; [by eexists|]. split; [lia|].
      destruct (decide (points pg = 1)) as [->|Hne]; [lia|].
      destruct (Hsteps (points pg - 1)) as [[_ Hv] _]; lia.
  - intros (Hp & Hpoints & Hv).
    destruct (PathGenerator.brownianBridge_ pg) eqn:Hmode.
    + apply next_bool_bridge_defined; [done|done|lia|].
      intros i Hi. unfold in_range. fold (points pg). lia.
    + apply next_bool_direct_defined; [done|done|lia|].
      intros i Hi. unfold in_range. fold (points pg). lia.
Qed.

Lemma next_bool_total antithetic pg :
  in_use pg -> runs antithetic pg ->
  exists s pg', PathGenerator.next_bool antithetic pg = Some (s, pg').
Proof.
  intros Huse Hruns. apply in_use_consistent in Huse.
  apply (next_bool_runs antithetic) in Huse as [_ Hdef].
  destruct (Hdef Hruns) as [[s pg'] Hrun]. by exists s, pg'.
Qed.

(** In a defined call the stored dimension is the number of steps. *)
Lemma steps_points pg :
  consistent pg -> 1 <= points pg ->
  N.to_nat (PathGenerator.size pg) + 1 = points pg.
Proof.
  intros [_ Hdim] Hpoints. unfold PathGenerator.size. rewrite Hdim.
  unfold TimeGrid.size. fold (points pg).
  rewrite Size_minus_one_of_nat by done. lia.
Qed.

(** What a call obtains, named by the collaborator's own functions. *)
Lemma obtained_direct antithetic pg :
  PathGenerator.brownianBridge_ pg = false ->
  obtained antithetic pg
  = (if antithetic then lastSequence (PathGenerator.generator_ pg)
     else snd (nextSequence (PathGenerator.generator_ pg))).
Proof.
  intros Hmode. unfold obtained, PathGenerator.obtain_direct.
  rewrite Hmode. by destruct antithetic.
Qed.

Lemma obtained_bridge antithetic pg :
  PathGenerator.brownianBridge_ pg = true ->
  obtained antithetic pg
  = (if antithetic then BrownianBridge.last (PathGenerator.bb_ pg)
     else snd (BrownianBridge.next (PathGenerator.bb_ pg))).
Proof.
  intros Hmode. unfold obtained, PathGenerator.obtain_bridge.
  rewrite Hmode. by destruct antithetic.
Qed.

(** ** The claims *)

(** C1.  For both constructors, construction fails if and only if
    [generator.dimension()] differs from the step count: the [timeSteps]
    argument of the first form, [timeGrid.size()-1] of the second.  The
    failure is a ConfigurationError whose message names both values, a
    failed construction returns no object, and construction succeeds
    whenever the two values are equal. *)
Theorem construction_fails_iff_dimension_differs
    (process : StochasticProcess) (length : Time) (timeSteps : Size)
    (timeGrid : TimeGrid.t) (generator : GSG) (brownianBridge : bool) :
  let a := PathGenerator.make_uniform (BB := BB) process length timeSteps
             generator brownianBridge in
  let b := PathGenerator.make_grid (BB := BB) process timeGrid generator
             brownianBridge in
  let steps := Size_minus_one (TimeGrid.size timeGrid) in
  let names (d n : Size) :=
    String.append "sequence generator dimensionality ("
      (String.append (show_Size d)
         (String.append ") != timeSteps (" (String.append (show_Size n) ")")))
  in
  ((exists e, a = inl e) <-> dimension generator <> timeSteps)
  /\ (dimension generator <> timeSteps ->
      a = inl (ConfigurationError (names (dimension generator) timeSteps))
      /\ forall pg, a <> inr pg)
  /\ (dimension generator = timeSteps -> exists pg, a = inr pg)
  /\ ((exists e, b = inl e) <-> dimension generator <> steps)
  /\ (dimension generator <> steps ->
      b = inl (ConfigurationError (names (dimension generator) steps))
      /\ forall pg, b <> inr pg)
  /\ (dimension generator = steps -> exists pg, b = inr pg).
Proof.
  cbv zeta. unfold PathGenerator.make_uniform, PathGenerator.make_grid.
  destruct (N.eqb_spec (dimension generator) timeSteps) as [Ea|Ea];
    destruct (N.eqb_spec (dimension generator)
                (Size_minus_one (TimeGrid.size timeGrid))) as [Eb|Eb];
    repeat split;
    try (intros [e He]; discriminate He);
    try (intros Hne; exfalso; by apply Hne);
    try (intros _; by eexists);
    try (intros pg Hpg; discriminate Hpg);
    try done.
Qed.

(** C9.  For every object in use, [size()] equals [timeGrid().size() - 1],
    the stored dimension is the number of steps of the grid, and no call
    of [next()] or [antithetic()] changes the stored dimension or the
    grid. *)
Theorem size_is_step_count pg :
  in_use pg ->
  PathGenerator.size pg
  = Size_minus_one (TimeGrid.size (PathGenerator.timeGrid pg))
  /\ (1 <= points pg -> N.to_nat (PathGenerator.size pg) + 1 = points pg)
  /\ forall antithetic s pg',
       PathGenerator.next_bool antithetic pg = Some (s, pg') ->
       PathGenerator.size pg' = PathGenerator.size pg
       /\ PathGenerator.timeGrid pg' = PathGenerator.timeGrid pg
       /\ PathGenerator.size pg'
          = Size_minus_one (TimeGrid.size (PathGenerator.timeGrid pg')).
Proof.
  intros Huse. pose proof (in_use_consistent pg Huse) as Hc.
  split; [apply Hc|]. split; [by apply steps_points|].
  intros antithetic s pg' Hrun.
  pose proof (next_bool_consistent _ _ _ _ Hc Hrun) as [_ Hdim'].
  apply next_bool_frame in Hrun as (_ & Hd & Hg & _).
  unfold PathGenerator.size, PathGenerator.timeGrid. done.
Qed.

(** C7.  The weight of the returned sample is the weight of the vector the
    call obtained, unchanged: the bridge's in bridge mode, the sequence
    generator's reported weight for that draw with the bridge disabled. *)
Theorem weight_passes_through antithetic pg :
  in_use pg -> runs antithetic pg ->
  exists s pg',
    PathGenerator.next_bool antithetic pg = Some (s, pg')
    /\ weight s = weight (obtained antithetic pg)
    /\ (PathGenerator.brownianBridge_ pg = false ->
        weight s
        = weight (if antithetic
                  then lastSequence (PathGenerator.generator_ pg)
                  else snd (nextSequence (PathGenerator.generator_ pg))))
    /\ (PathGenerator.brownianBridge_ pg = true ->
        weight s
        = weight (if antithetic
                  then BrownianBridge.last (PathGenerator.bb_ pg)
                  else snd (BrownianBridge.next (PathGenerator.bb_ pg)))).
Proof.
  intros Huse Hruns.
  destruct (next_bool_total antithetic pg Huse Hruns) as (s & pg' & Hrun).
  exists s, pg'. split; [done|].
  assert (Hw : weight s = weight (obtained antithetic pg)).
  { destruct (PathGenerator.brownianBridge_ pg) eqn:Hmode.
    - by apply next_bool_bridge in Hrun as (p & _ & _ & Hw & _).
    - by apply next_bool_direct in Hrun as (p & _ & _ & Hw & _). }
  split; [done|]. rewrite Hw. unfold obtained.
  split; intros ->; unfold PathGenerator.obtain_direct,
    PathGenerator.obtain_bridge; by destruct antithetic.
Qed.

(** C4.  Every path [next()] produces, in either mode and at every call,
    has exactly N+1 elements, N being the stored dimension, and its
    element 0 is [process.x0()]. *)
Theorem next_path_shape pg :
  in_use pg -> runs false pg ->
  exists p s pg',
    PathGenerator.process_ pg = Some p
    /\ PathGenerator.next pg = Some (s, pg')
    /\ length (value s) = N.to_nat (PathGenerator.size pg) + 1
    /\ value s !! 0 = Some (x0 p).
Proof.
  intros Huse Hruns.
  destruct (next_bool_total false pg Huse Hruns) as (s & pg' & Hrun).
  pose proof (in_use_consistent pg Huse) as Hc.
  destruct Hruns as (_ & Hpoints & _).
  assert (Hone : 1 <= points pg)
    by (destruct (PathGenerator.brownianBridge_ pg); lia).
  rewrite (steps_points pg Hc Hone). destruct Hc as [Hbuf _].
  destruct (PathGenerator.brownianBridge_ pg) eqn:Hmode.
  - pose proof Hrun as Hrun'.
    apply next_bool_bridge in Hrun' as (p & Hp & _ & _ & Hlen & _ & H0 & _);
      [|done].
    exists p, s, pg'. rewrite Hlen, Hbuf. done.
  - pose proof Hrun as Hrun'.
    apply next_bool_direct in Hrun' as (p & Hp & _ & _ & Hlen & H0 & _);
      [|done].
    exists p, s, pg'. rewrite Hlen, Hbuf. done.
Qed.

(** C2, as the code has it.  In direct mode, at every call of [next()] or
    [antithetic()] on an object in use, the path is built by the recurrence
    path[i] = process.evolve(t[i-1], path[i-1], dt[i-1], sign * v[i-1]) for
    i = 1..N, where v is the obtained variate vector and sign is -1 for
    antithetic, +1 otherwise. *)
Theorem direct_mode_recurrence antithetic pg :
  in_use pg -> PathGenerator.brownianBridge_ pg = false ->
  runs antithetic pg ->
  exists p s pg',
    PathGenerator.process_ pg = Some p
    /\ PathGenerator.next_bool antithetic pg = Some (s, pg')
    /\ forall i, 1 <= i <= N.to_nat (PathGenerator.size pg) ->
         exists t dt prev z,
           TimeGrid.at_ (PathGenerator.timeGrid pg) (i - 1) = Some t
           /\ TimeGrid.dt (PathGenerator.timeGrid pg) (i - 1) = Some dt
           /\ value s !! (i - 1) = Some prev
           /\ value (obtained antithetic pg) !! (i - 1) = Some z
           /\ value s !! i
              = Some (evolve p t prev dt (sign antithetic * z)%Qc).
Proof.
  intros Huse Hmode Hruns.
  destruct (next_bool_total antithetic pg Huse Hruns) as (s & pg' & Hrun).
  pose proof (in_use_consistent pg Huse) as Hc.
  destruct Hruns as (_ & Hpoints & _). rewrite Hmode in Hpoints.
  pose proof (steps_points pg Hc Hpoints) as HN. destruct Hc as [Hbuf _].
  pose proof Hrun as Hrun'.
  apply next_bool_direct in Hrun' as (p & Hp & _ & _ & Hlen & _ & Hsteps);
    [|done].
  exists p, s, pg'. split; [done|]. split; [done|].
  intros i Hi.
  destruct (Hsteps i) as (_ & prev & x & Hprev & Hx & t & dt & z & Ht & Hdt
                          & Hz & ->); [lia|].
  exists t, dt, prev, z. rewrite <- signed_sign. done.
Qed.


(** *** A call followed by its antithetic counterpart *)

Lemma obtained_after_next pg s pg' :
  retains_draw pg ->
  PathGenerator.next_bool false pg = Some (s, pg') ->
  obtained true pg' = obtained false pg.
Proof.
  unfold retains_draw, obtained. intros Hkeep Hrun.
  destruct (PathGenerator.brownianBridge_ pg) eqn:Hmode.
  - apply next_bool_bridge in Hrun as (p & _ & -> & _); [|done]. done.
  - apply next_bool_direct in Hrun as (p & _ & -> & _); [|done]. done.
Qed.

Lemma runs_after_next pg s pg' :
  retains_draw pg -> runs false pg ->
  PathGenerator.next_bool false pg = Some (s, pg') ->
  runs true pg'.
Proof.
  intros Hkeep (Hp & Hpoints & Hv) Hrun. unfold runs, points.
  rewrite (obtained_after_next pg s pg' Hkeep Hrun).
  apply next_bool_frame in Hrun as (-> & _ & -> & -> & _). done.
Qed.

(** C6, as the code has it.  When the [antithetic()] call that follows a
    [next()] reuses its draw, it applies at every step, to its own previous
    element, the shock of the direct path with its sign flipped.  In bridge
    mode, with d the recovered diffusion of step i of the bridge's fresh
    values, the direct path has path[i] =
    apply(expectation(t, path[i-1], dt), d) and the antithetic path
    apply(expectation(t, path'[i-1], dt), -d).  In direct mode, with z the
    variate i-1 of the generator's fresh sequence, the direct path has
    path[i] = evolve(t, path[i-1], dt, z) and the antithetic path
    evolve(t, path'[i-1], dt, -z). *)
Theorem antithetic_negates_every_shock pg :
  in_use pg -> runs false pg -> retains_draw pg ->
  exists p s pg' s' pg'',
    PathGenerator.process_ pg = Some p
    /\ PathGenerator.next pg = Some (s, pg')
    /\ PathGenerator.antithetic pg' = Some (s', pg'')
    /\ (PathGenerator.brownianBridge_ pg = true ->
        forall i, 1 <= i <= N.to_nat (PathGenerator.size pg) ->
          exists t dt prev prev' d,
            TimeGrid.at_ (PathGenerator.timeGrid pg) (i - 1) = Some t
            /\ TimeGrid.dt (PathGenerator.timeGrid pg) (i - 1) = Some dt
            /\ recovered_diffusions
                 (value (snd (BrownianBridge.next (PathGenerator.bb_ pg))))
                 !! (i - 1) = Some d
            /\ value s !! (i - 1) = Some prev
            /\ value s' !! (i - 1) = Some prev'
            /\ value s !! i = Some (apply p (expectation p t prev dt) d)
            /\ value s' !! i
               = Some (apply p (expectation p t prev' dt) (- d)%Qc))
    /\ (PathGenerator.brownianBridge_ pg = false ->
        forall i, 1 <= i <= N.to_nat (PathGenerator.size pg) ->
          exists t dt prev prev' z,
            TimeGrid.at_ (PathGenerator.timeGrid pg) (i - 1) = Some t
            /\ TimeGrid.dt (PathGenerator.timeGrid pg) (i - 1) = Some dt
            /\ value (snd (nextSequence (PathGenerator.generator_ pg)))
                 !! (i - 1) = Some z
            /\ value s !! (i - 1) = Some prev
            /\ value s' !! (i - 1) = Some prev'
            /\ value s !! i = Some (evolve p t prev dt z)
            /\ value s' !! i = Some (evolve p t prev' dt (- z)%Qc)).
Proof.
  intros Huse Hruns Hkeep.
  destruct (next_bool_total false pg Huse Hruns) as (s & pg' & Hrun).
  pose proof (in_use_call false pg s pg' Huse Hrun) as Huse'.
  pose proof (runs_after_next pg s pg' Hkeep Hruns Hrun) as Hruns'.
  destruct (next_bool_total true pg' Huse' Hruns') as (s' & pg'' & Hrun').
  pose proof (in_use_consistent pg Huse) as Hc.
  pose proof (obtained_after_next pg s pg' Hkeep Hrun) as Hsame.
  pose proof (next_bool_frame _ _ _ _ Hrun)
    as (Hmode' & _ & Hg & Hp' & Hs & Hlen).
  pose proof (next_bool_frame _ _ _ _ Hrun') as (_ & _ & _ & _ & _ & Hlen').
  rewrite Hs in Hlen'.
  destruct Hruns as ([p Hp] & Hpoints & _). rewrite Hp in Hp'.
  assert (Hone : 1 <= points pg)
    by (destruct (PathGenerator.brownianBridge_ pg); lia).
  pose proof (steps_points pg Hc Hone) as HN. destruct Hc as [Hbuf _].
  exists p, s, pg', s', pg''.
  split; [done|]. split; [done|]. split; [done|].
  unfold PathGenerator.timeGrid. split; intros Hmode i Hi.
  - apply next_bool_bridge in Hrun as (q & Hq & _ & _ & _ & _ & _ & Hsteps);
      [|done].
    apply next_bool_bridge in Hrun'
      as (q' & Hq' & _ & _ & _ & _ & _ & Hsteps'); [|congruence].
    assert (q = p) as -> by congruence. assert (q' = p) as -> by congruence.
    rewrite Hsame in Hsteps'.
    rewrite (obtained_bridge false pg Hmode) in Hsteps, Hsteps'.
    destruct (Hsteps i) as (_ & prev & x & d & Hprev & Hx & Hd & t & dt & Ht
                            & Hdt & ->); [lia|].
    destruct (Hsteps' i) as (_ & prev' & x' & d' & Hprev' & Hx' & Hd' & t'
                             & dt' & Ht' & Hdt' & ->); [lia|].
    rewrite Hg in Ht', Hdt'.
    assert (d' = d) as -> by congruence.
    assert (t' = t) as -> by congruence.
    assert (dt' = dt) as -> by congruence.
    exists t, dt, prev, prev', d. done.
  - apply next_bool_direct in Hrun as (q & Hq & _ & _ & _ & _ & Hsteps);
      [|done].
    apply next_bool_direct in Hrun' as (q' & Hq' & _ & _ & _ & _ & Hsteps');
      [|congruence].
    assert (q = p) as -> by congruence. assert (q' = p) as -> by congruence.
    rewrite Hsame in Hsteps'.
    rewrite (obtained_direct false pg Hmode) in Hsteps, Hsteps'.
    destruct (Hsteps i) as (_ & prev & x & Hprev & Hx & t & dt & z & Ht & Hdt
                            & Hz & ->); [lia|].
    destruct (Hsteps' i) as (_ & prev' & x' & Hprev' & Hx' & t' & dt' & z'
                             & Ht' & Hdt' & Hz' & ->); [lia|].
    rewrite Hg in Ht', Hdt'.
    assert (z' = z) as -> by congruence.
    assert (t' = t) as -> by congruence.
    assert (dt' = dt) as -> by congruence.
    exists t, dt, prev, prev', z. done.
Qed.

(** *** The buffer is overwritten *)

Lemma paths_agree (written : nat -> Real -> Real -> Prop) (l1 l2 : Path.t) :
  (forall i prev x x', written i prev x -> written i prev x' -> x = x') ->
  length l1 = length l2 -> l1 !! 0 = l2 !! 0 ->
  (forall i, 1 <= i < length l1 ->
     exists prev x, l1 !! (i - 1) = Some prev /\ l1 !! i = Some x
                    /\ written i prev x) ->
  (forall i, 1 <= i < length l2 ->
     exists prev x, l2 !! (i - 1) = Some prev /\ l2 !! i = Some x
                    /\ written i prev x) ->
  l1 = l2.
Proof.
  intros Hfun Hlen H0 H1 H2. apply list_eq. intros i.
  induction i as [|i IH]; [done|].
  destruct (decide (S i < length l1)) as [Hlt|Hge].
  - destruct (H1 (S i)) as (prev1 & x1 & Hprev1 & Hx1 & Hw1); [lia|].
    destruct (H2 (S i)) as (prev2 & x2 & Hprev2 & Hx2 & Hw2); [lia|].
    replace (S i - 1) with i in * by lia.
    assert (prev2 = prev1) as -> by congruence.
    rewrite Hx1, Hx2. f_equal. by eapply Hfun.
  - rewrite !lookup_ge_None_2 by lia. done.
Qed.

Lemma direct_value_functional p g v antithetic i prev x x' :
  direct_value p g v antithetic i prev x ->
  direct_value p g v antithetic i prev x' -> x = x'.
Proof.
  intros (t & dt & z & Ht & Hdt & Hz & ->) (t' & dt' & z' & Ht' & Hdt' & Hz'
                                           & ->).
  congruence.
Qed.

Lemma bridge_value_functional p g antithetic d i prev x x' :
  bridge_value p g antithetic d i prev x ->
  bridge_value p g antithetic d i prev x' -> x = x'.
Proof.
  intros (t & dt & Ht & Hdt & ->) (t' & dt' & Ht' & Hdt' & ->). congruence.
Qed.

Lemma next_bool_defined_by_length antithetic pg b1 b2 :
  length (value b1) = length (value b2) ->
  is_Some (PathGenerator.next_bool antithetic (with_buffer pg b1)) ->
  is_Some (PathGenerator.next_bool antithetic (with_buffer pg b2)).
Proof.
  intros Hlen [[s pg'] Hrun].
  destruct (PathGenerator.brownianBridge_ pg) eqn:Hmode.
  - apply next_bool_bridge in Hrun
      as (p & Hp & _ & _ & Hs & Htwo & _ & Hsteps); [|done].
    simpl in Hp, Hs, Hsteps.
    apply next_bool_bridge_defined; simpl; [done|by eexists|lia|].
    intros i Hi. apply Hsteps. lia.
  - apply next_bool_direct in Hrun as (p & Hp & _ & _ & Hs & H0 & Hsteps);
      [|done].
    apply lookup_lt_Some in H0. simpl in Hp, Hs, Hsteps.
    apply next_bool_direct_defined; simpl; [done|by eexists|lia|].
    intros i Hi. apply Hsteps. lia.
Qed.

(** A call reads no slot of the buffer before writing it: its result
    depends on the length of the buffer alone. *)
Lemma next_bool_ignores_buffer antithetic pg b1 b2 :
  length (value b1) = length (value b2) ->
  PathGenerator.next_bool antithetic (with_buffer pg b1)
  = PathGenerator.next_bool antithetic (with_buffer pg b2).
Proof.
  intros Hlen.
  destruct (PathGenerator.next_bool antithetic (with_buffer pg b1))
    as [[s1 pg1]|] eqn:Hrun1;
    destruct (PathGenerator.next_bool antithetic (with_buffer pg b2))
      as [[s2 pg2]|] eqn:Hrun2.
  - assert (Hs : s1 = s2 -> Some (s1, pg1) = Some (s2, pg2)).
    { intros <-.
      destruct (PathGenerator.brownianBridge_ pg) eqn:Hmode.
      - apply next_bool_bridge in Hrun1 as (_ & _ & -> & _); [|done].
        apply next_bool_bridge in Hrun2 as (_ & _ & -> & _); [|done]. done.
      - apply next_bool_direct in Hrun1 as (_ & _ & -> & _); [|done].
        apply next_bool_direct in Hrun2 as (_ & _ & -> & _); [|done]. done. }
    apply Hs. clear Hs.
    destruct (PathGenerator.brownianBridge_ pg) eqn:Hmode.
    + apply next_bool_bridge in Hrun1
        as (p1 & Hp1 & _ & Hw1 & Hlen1 & _ & H01 & Hsteps1); [|done].
      apply next_bool_bridge in Hrun2
        as (p2 & Hp2 & _ & Hw2 & Hlen2 & _ & H02 & Hsteps2); [|done].
      simpl in Hp1, Hp2, Hlen1, Hlen2.
      assert (p2 = p1) as -> by congruence.
      change (obtained antithetic (with_buffer pg b2))
        with (obtained antithetic (with_buffer pg b1)) in *.
      destruct s1 as [v1 w1], s2 as [v2 w2]. simpl in *.
      f_equal; [|congruence].
      apply (paths_agree
               (fun i prev x =>
                  exists d,
                    recovered_diffusions
                      (value (obtained antithetic (with_buffer pg b1)))
                      !! (i - 1) = Some d
                    /\ bridge_value p1 (PathGenerator.timeGrid_ pg)
                         antithetic d i prev x)).
      * intros i prev x x' (d & Hd & Hx) (d' & Hd' & Hx').
        assert (d' = d) as -> by congruence.
        by eapply bridge_value_functional.
      * congruence.
      * congruence.
      * intros i Hi.
        destruct (Hsteps1 i Hi) as (_ & prev & x & d & ? & ? & ? & ?).
        exists prev, x. split; [done|]. split; [done|]. by exists d.
      * intros i Hi.
        destruct (Hsteps2 i Hi) as (_ & prev & x & d & ? & ? & ? & ?).
        exists prev, x. split; [done|]. split; [done|]. by exists d.
    + apply next_bool_direct in Hrun1
        as (p1 & Hp1 & _ & Hw1 & Hlen1 & H01 & Hsteps1); [|done].
      apply next_bool_direct in Hrun2
        as (p2 & Hp2 & _ & Hw2 & Hlen2 & H02 & Hsteps2); [|done].
      simpl in Hp1, Hp2, Hlen1, Hlen2.
      assert (p2 = p1) as -> by congruence.
      change (obtained antithetic (with_buffer pg b2))
        with (obtained antithetic (with_buffer pg b1)) in *.
      destruct s1 as [v1 w1], s2 as [v2 w2]. simpl in *.
      f_equal; [|congruence].
      apply (paths_agree
               (direct_value p1 (PathGenerator.timeGrid_ pg)
                  (value (obtained antithetic (with_buffer pg b1)))
                  antithetic)).
      * intros i prev x x'. apply direct_value_functional.
      * congruence.
      * congruence.
      * intros i Hi. destruct (Hsteps1 i Hi) as (_ & prev & x & ? & ? & ?).
        by exists prev, x.
      * intros i Hi. destruct (Hsteps2 i Hi) as (_ & prev & x & ? & ? & ?).
        by exists prev, x.
  - destruct (next_bool_defined_by_length antithetic pg b1 b2 Hlen)
      as [r Hr]; [by eexists|]. congruence.
  - destruct (next_bool_defined_by_length antithetic pg b2 b1 (eq_sym Hlen))
      as [r Hr]; [by eexists|]. congruence.
  - done.
Qed.

(** *** Determinism *)

Lemma constructed_shape pg :
  constructed pg ->
  pg = PathGenerator.mk (PathGenerator.brownianBridge_ pg)
         (PathGenerator.generator_ pg)
         (dimension (PathGenerator.generator_ pg))
         (PathGenerator.timeGrid_ pg) (PathGenerator.process_ pg)
         (mkSample (Path.make (PathGenerator.timeGrid_ pg)) (Q2Qc 1))
         (BrownianBridge.make (PathGenerator.process_ pg)
            (PathGenerator.timeGrid_ pg) (PathGenerator.generator_ pg)).
Proof.
  intros [process length timeSteps generator brownianBridge pg' Hmake
         |process timeGrid generator brownianBridge pg' Hmake].
  - by apply make_uniform_inr in Hmake as [_ ->].
  - by apply make_grid_inr in Hmake as [_ ->].
Qed.

(** C8.  Two freshly constructed objects with the same configuration (the
    same process, grid, bridge flag and sequence generator in the same
    state) produce the same first output from [next()]: the same value
    sequence and the same weight, the one call being defined exactly when
    the other is; and this whatever values their freshly allocated buffers
    hold. *)
Theorem first_path_is_deterministic pg1 pg2 :
  constructed pg1 -> constructed pg2 ->
  PathGenerator.process_ pg1 = PathGenerator.process_ pg2 ->
  PathGenerator.timeGrid pg1 = PathGenerator.timeGrid pg2 ->
  PathGenerator.brownianBridge_ pg1 = PathGenerator.brownianBridge_ pg2 ->
  PathGenerator.generator_ pg1 = PathGenerator.generator_ pg2 ->
  (runs false pg1 <-> runs false pg2)
  /\ (runs false pg1 ->
      exists s1 pg1' s2 pg2',
        PathGenerator.next pg1 = Some (s1, pg1')
        /\ PathGenerator.next pg2 = Some (s2, pg2')
        /\ value s1 = value s2 /\ weight s1 = weight s2)
  /\ (forall b1 b2 : Sample Path.t,
        length (value b1) = points pg1 -> length (value b2) = points pg2 ->
        PathGenerator.next (with_buffer pg1 b1)
        = PathGenerator.next (with_buffer pg2 b2)).
Proof.
  intros Hnew1 Hnew2 Hprocess Hgrid Hflag Hgenerator.
  unfold PathGenerator.timeGrid in Hgrid.
  assert (Hsame : pg1 = pg2).
  { rewrite (constructed_shape pg1 Hnew1), (constructed_shape pg2 Hnew2).
    by rewrite Hprocess, Hgrid, Hflag, Hgenerator. }
  split; [by rewrite Hsame|]. split.
  - intros Hruns.
    destruct (next_bool_total false pg1 (in_use_new pg1 Hnew1) Hruns)
      as (s & pg' & Hrun).
    exists s, pg', s, pg'. unfold PathGenerator.next.
    rewrite <- Hsame. done.
  - intros b1 b2 Hb1 Hb2. rewrite <- Hsame in *.
    apply next_bool_ignores_buffer. congruence.
Qed.

(** *** The stored copy of the generator *)


End Properties.

(** ** Further properties of the class *)

Section Further.

Context {GSG BB : Type}.
Context {generators : SequenceGenerator GSG}.
Context {bridges : BrownianBridge.Ops GSG BB}.

Implicit Types (pg : PathGenerator.t GSG BB) (path : Path.t).
Implicit Types (p : StochasticProcess1D) (g : TimeGrid.t).

Lemma with_own_buffer pg : with_buffer pg (PathGenerator.next_ pg) = pg.
Proof. by destruct pg. Qed.

(** An antithetic call changes the buffer and nothing else. *)
Lemma antithetic_rewrites_buffer pg s pg' :
  PathGenerator.antithetic pg = Some (s, pg') ->
  pg' = with_buffer pg s
  /\ length (value s) = length (value (PathGenerator.next_ pg)).
Proof.
  unfold PathGenerator.antithetic. intros Hrun.
  destruct (PathGenerator.brownianBridge_ pg) eqn:Hmode.
  - apply next_bool_bridge in Hrun as (p & _ & -> & _ & Hlen & _); [|done].
    unfold with_buffer. by rewrite Hmode.
  - apply next_bool_direct in Hrun as (p & _ & -> & _ & Hlen & _); [|done].
    unfold with_buffer. by rewrite Hmode.
Qed.

(** X1.  [antithetic()] consumes no draw and leaves no trace: every call made
    after it behaves as if it had not been made, and repeating it returns
    the same sample and leaves the same object. *)
Theorem antithetic_is_transparent pg s pg' :
  PathGenerator.antithetic pg = Some (s, pg') ->
  (forall antithetic,
     PathGenerator.next_bool antithetic pg'
     = PathGenerator.next_bool antithetic pg)
  /\ PathGenerator.antithetic pg' = Some (s, pg').
Proof.
  intros Hrun.
  destruct (antithetic_rewrites_buffer pg s pg' Hrun) as [Hpg' Hlen].
  assert (Hsame : forall antithetic,
            PathGenerator.next_bool antithetic pg'
            = PathGenerator.next_bool antithetic pg).
  { intros antithetic. rewrite Hpg'. rewrite <- (with_own_buffer pg) at 2.
    by apply next_bool_ignores_buffer. }
  split; [exact Hsame|].
  unfold PathGenerator.antithetic. rewrite Hsame. exact Hrun.
Qed.

(** X5.  A call is defined exactly when the process handle is one-dimensional,
    the grid has a first point (and a first step, in bridge mode) and the
    obtained vector has a variate for every step. *)
Theorem call_is_defined_exactly_when antithetic pg :
  in_use pg ->
  is_Some (PathGenerator.next_bool antithetic pg)
  <-> (is_Some (PathGenerator.process_ pg)
       /\ (if PathGenerator.brownianBridge_ pg then 2 else 1) <= points pg
       /\ N.to_nat (PathGenerator.size pg)
          <= length (value (obtained antithetic pg))).
Proof.
  intros Huse. pose proof (in_use_consistent pg Huse) as Hc.
  rewrite (next_bool_runs antithetic pg Hc). unfold runs.
  split; intros (Hp & Hpoints & Hv); (split; [done|]); (split; [done|]).
  - assert (Hone : 1 <= points pg)
      by (destruct (PathGenerator.brownianBridge_ pg); lia).
    pose proof (steps_points pg Hc Hone). lia.
  - assert (Hone : 1 <= points pg)
      by (destruct (PathGenerator.brownianBridge_ pg); lia).
    pose proof (steps_points pg Hc Hone). lia.
Qed.

Lemma next_bool_undefined antithetic pg :
  in_use pg -> ~ runs antithetic pg ->
  PathGenerator.next_bool antithetic pg = None.
Proof.
  intros Huse Hnot. apply in_use_consistent in Huse.
  destruct (PathGenerator.next_bool antithetic pg) as [r|] eqn:Hrun; [|done].
  exfalso. apply Hnot. apply (next_bool_runs antithetic pg Huse). by eexists.
Qed.

(** X6.  On a grid with a single point, that is with no step at all, the stored
    dimension is 0; a call in direct mode returns the one-element path
    [x0] with the weight of the obtained vector, and a call in bridge mode
    is undefined, since that branch writes path[1] before it looks at the
    length of the path. *)
Theorem single_point_grid antithetic pg :
  in_use pg -> points pg = 1 ->
  PathGenerator.size pg = 0%N
  /\ (PathGenerator.brownianBridge_ pg = true ->
      PathGenerator.next_bool antithetic pg = None)
  /\ (PathGenerator.brownianBridge_ pg = false ->
      forall p, PathGenerator.process_ pg = Some p ->
        exists pg',
          PathGenerator.next_bool antithetic pg
          = Some (mkSample [x0 p] (weight (obtained antithetic pg)), pg')).
Proof.
  intros Huse Hpoints. pose proof (in_use_consistent pg Huse) as Hc.
  split; [|split].
  - pose proof (steps_points pg Hc) as HN. rewrite Hpoints in HN.
    specialize (HN ltac:(lia)). lia.
  - intros Hmode. apply next_bool_undefined; [done|].
    unfold runs. rewrite Hmode, Hpoints. lia.
  - intros Hmode p Hp.
    assert (Hruns : runs antithetic pg).
    { unfold runs. rewrite Hmode, Hp, Hpoints. split; [by eexists|lia]. }
    destruct (next_bool_total antithetic pg Huse Hruns) as (s & pg' & Hrun).
    exists pg'. rewrite Hrun. do 2 f_equal.
    apply next_bool_direct in Hrun as (q & Hq & _ & Hw & Hlen & H0 & _);
      [|done].
    assert (q = p) as -> by congruence.
    destruct Hc as [Hbuf _]. rewrite Hbuf, Hpoints in Hlen.
    destruct s as [[|x [|y l]] w]; simpl in *; try done.
    injection H0 as ->. by rewrite Hw.
Qed.

Lemma null_process_undefined antithetic pg :
  PathGenerator.process_ pg = None ->
  PathGenerator.next_bool antithetic pg = None.
Proof.
  intros Hp. unfold PathGenerator.next_bool.
  destruct (PathGenerator.brownianBridge_ pg).
  - destruct (PathGenerator.obtain_bridge antithetic pg). by rewrite Hp.
  - destruct (PathGenerator.obtain_direct antithetic pg). by rewrite Hp.
Qed.

(** X7.  The constructors do not check the cast of the process handle: for a
    process that is not one-dimensional, construction succeeds whenever
    the dimension check passes, and every call on the object is then
    undefined (a null handle is dereferenced). *)
Theorem process_cast_is_unchecked (length : Time) (timeSteps : Size)
    (timeGrid : TimeGrid.t) (generator : GSG) (brownianBridge : bool) :
  (dimension generator = timeSteps ->
   exists pg,
     PathGenerator.make_uniform (BB := BB) NotOneDimensional length timeSteps
       generator brownianBridge = inr pg
     /\ forall antithetic, PathGenerator.next_bool antithetic pg = None)
  /\ (dimension generator = Size_minus_one (TimeGrid.size timeGrid) ->
      exists pg,
        PathGenerator.make_grid (BB := BB) NotOneDimensional timeGrid
          generator brownianBridge = inr pg
        /\ forall antithetic, PathGenerator.next_bool antithetic pg = None).
Proof.
  split; intros Hdim.
  - destruct (PathGenerator.make_uniform (BB := BB) NotOneDimensional length
                timeSteps generator brownianBridge) as [e|pg] eqn:Hmake.
    + unfold PathGenerator.make_uniform in Hmake.
      apply N.eqb_eq in Hdim. by rewrite Hdim in Hmake.
    + exists pg. split; [done|]. intros antithetic.
      apply make_uniform_inr in Hmake as [_ ->].
      by apply null_process_undefined.
  - destruct (PathGenerator.make_grid (BB := BB) NotOneDimensional timeGrid
                generator brownianBridge) as [e|pg] eqn:Hmake.
    + unfold PathGenerator.make_grid in Hmake.
      apply N.eqb_eq in Hdim. by rewrite Hdim in Hmake.
    + exists pg. split; [done|]. intros antithetic.
      apply make_grid_inr in Hmake as [_ ->].
      by apply null_process_undefined.
Qed.

(** X8.  On an empty grid [timeGrid_.size()-1] wraps around to the largest
    [Size]: construction fails for every generator of another dimension,
    with 18446744073709551615 as the number of steps in the message; and
    for a generator of that dimension it succeeds, with an object on which
    every call is undefined. *)
Theorem empty_grid_wraps_around (process : StochasticProcess)
    (generator : GSG) (brownianBridge : bool) :
  (dimension generator <> Size_max ->
   PathGenerator.make_grid (BB := BB) process (TimeGrid.mk []) generator
     brownianBridge
   = inl (ConfigurationError
            (String.append "sequence generator dimensionality ("
               (String.append (show_Size (dimension generator))
                  ") != timeSteps (18446744073709551615)"))))
  /\ (dimension generator = Size_max ->
      exists pg,
        PathGenerator.make_grid (BB := BB) process (TimeGrid.mk []) generator
          brownianBridge = inr pg
        /\ forall antithetic, PathGenerator.next_bool antithetic pg = None).
Proof.
  assert (Hsteps : Size_minus_one (TimeGrid.size (TimeGrid.mk [])) = Size_max)
    by reflexivity.
  split; intros Hdim.
  - unfold PathGenerator.make_grid. rewrite Hsteps.
    destruct (N.eqb_spec (dimension generator) Size_max) as [E|E]; [done|].
    reflexivity.
  - destruct (PathGenerator.make_grid (BB := BB) process (TimeGrid.mk [])
                generator brownianBridge) as [e|pg] eqn:Hmake.
    + unfold PathGenerator.make_grid in Hmake. rewrite Hsteps in Hmake.
      apply N.eqb_eq in Hdim. by rewrite Hdim in Hmake.
    + exists pg. split; [done|]. intros antithetic.
      pose proof (in_use_new pg (constructed_grid _ _ _ _ _ Hmake)) as Huse.
      apply next_bool_undefined; [done|].
      apply make_grid_inr in Hmake as [_ ->].
      unfold runs, points. simpl. destruct brownianBridge; lia.
Qed.

(** X4.  An object keeps no history: what a call returns, and the object it
    leaves, depend on the bridge flag, the grid, the process and the state
    of the two collaborators, not on the paths generated before. *)
Theorem calls_depend_on_collaborators_only antithetic pg1 pg2 :
  in_use pg1 -> in_use pg2 ->
  PathGenerator.brownianBridge_ pg1 = PathGenerator.brownianBridge_ pg2 ->
  PathGenerator.timeGrid_ pg1 = PathGenerator.timeGrid_ pg2 ->
  PathGenerator.process_ pg1 = PathGenerator.process_ pg2 ->
  PathGenerator.generator_ pg1 = PathGenerator.generator_ pg2 ->
  PathGenerator.bb_ pg1 = PathGenerator.bb_ pg2 ->
  PathGenerator.next_bool antithetic pg1
  = PathGenerator.next_bool antithetic pg2.
Proof.
  intros Huse1 Huse2 Hflag Hgrid Hprocess Hgenerator Hbridge.
  destruct (in_use_consistent pg1 Huse1) as [Hbuf1 Hdim1].
  destruct (in_use_consistent pg2 Huse2) as [Hbuf2 Hdim2].
  unfold points in Hbuf1, Hbuf2. rewrite Hgrid in Hbuf1, Hdim1.
  assert (Hpg2 : pg2 = with_buffer pg1 (PathGenerator.next_ pg2)).
  { destruct pg1, pg2. unfold with_buffer. simpl in *. congruence. }
  rewrite Hpg2 at 1. rewrite <- (with_own_buffer pg1) at 1.
  apply next_bool_ignores_buffer. congruence.
Qed.

(** X10.  The first constructor is the second one applied to the uniform grid:
    the two return the same object, or the same error. *)
Theorem constructors_agree_on_uniform_grids (process : StochasticProcess)
    (length : Time) (timeSteps : Size) (generator : GSG)
    (brownianBridge : bool) :
  PathGenerator.make_uniform (BB := BB) process length timeSteps generator
    brownianBridge
  = PathGenerator.make_grid process (TimeGrid.uniform length timeSteps)
      generator brownianBridge.
Proof.
  unfold PathGenerator.make_uniform, PathGenerator.make_grid.
  rewrite uniform_steps.
  destruct (N.eqb_spec (dimension generator) timeSteps); reflexivity.
Qed.

Lemma next_bool_advances antithetic pg s pg' :
  PathGenerator.next_bool antithetic pg = Some (s, pg') ->
  PathGenerator.brownianBridge_ pg' = PathGenerator.brownianBridge_ pg
  /\ (PathGenerator.brownianBridge_ pg = false ->
      PathGenerator.generator_ pg'
      = (if antithetic then PathGenerator.generator_ pg
         else fst (nextSequence (PathGenerator.generator_ pg)))
      /\ PathGenerator.bb_ pg' = PathGenerator.bb_ pg)
  /\ (PathGenerator.brownianBridge_ pg = true ->
      PathGenerator.bb_ pg'
      = (if antithetic then PathGenerator.bb_ pg
         else fst (BrownianBridge.next (PathGenerator.bb_ pg)))
      /\ PathGenerator.generator_ pg' = PathGenerator.generator_ pg).
Proof.
  intros Hrun. destruct (PathGenerator.brownianBridge_ pg) eqn:Hmode.
  - apply next_bool_bridge in Hrun as (p & _ & -> & _); [|done]. simpl.
    split; [done|]. split; [done|]. intros _.
    unfold PathGenerator.obtain_bridge. by destruct antithetic.
  - apply next_bool_direct in Hrun as (p & _ & -> & _); [|done]. simpl.
    split; [done|]. split; [|done]. intros _.
    unfold PathGenerator.obtain_direct. by destruct antithetic.
Qed.

(** X3.  Over any sequence of calls that is defined, there is one sample per
    call, each [next()] consumes exactly one draw and each [antithetic()]
    none: in direct mode the stored generator has advanced once per
    [next()] and the bridge is untouched, in bridge mode the bridge has
    advanced once per [next()] and the stored generator is untouched; the
    flag, the dimension, the grid and the process never change. *)
Theorem one_draw_per_next script : forall pg samples pg',
  run script pg = Some (samples, pg') ->
  length samples = length script
  /\ PathGenerator.brownianBridge_ pg' = PathGenerator.brownianBridge_ pg
  /\ PathGenerator.size pg' = PathGenerator.size pg
  /\ PathGenerator.timeGrid pg' = PathGenerator.timeGrid pg
  /\ PathGenerator.process_ pg' = PathGenerator.process_ pg
  /\ (PathGenerator.brownianBridge_ pg = false ->
      PathGenerator.generator_ pg'
      = Nat.iter (fresh_calls script) (fun state : GSG => fst (nextSequence state))
          (PathGenerator.generator_ pg)
      /\ PathGenerator.bb_ pg' = PathGenerator.bb_ pg)
  /\ (PathGenerator.brownianBridge_ pg = true ->
      PathGenerator.bb_ pg'
      = Nat.iter (fresh_calls script) (fun state : BB => fst (BrownianBridge.next state))
          (PathGenerator.bb_ pg)
      /\ PathGenerator.generator_ pg' = PathGenerator.generator_ pg).
Proof.
  induction script as [|antithetic rest IH]; intros pg samples pg' Hrun.
  - injection Hrun as <- <-. by repeat split.
  - simpl in Hrun.
    apply bind_Some in Hrun as ([s pg1] & Hcall & Hrun).
    apply bind_Some in Hrun as ([more pg2] & Hrest & Hrun).
    injection Hrun as <- <-.
    apply IH in Hrest as (Hlen & Hflag & Hsize & Hgrid & Hprocess & Hdirect
                          & Hbridge).
    pose proof (next_bool_frame _ _ _ _ Hcall) as (_ & Hd & Hg & Hp & _).
    apply next_bool_advances in Hcall as (Hflag1 & Hdirect1 & Hbridge1).
    unfold PathGenerator.size, PathGenerator.timeGrid in *.
    split; [simpl; lia|]. split; [congruence|]. split; [congruence|].
    split; [congruence|]. split; [congruence|].
    unfold fresh_calls in *. split; intros Hmode.
    + destruct (Hdirect1 Hmode) as [Hg1 Hb1].
      destruct Hdirect as [Hg2 Hb2]; [congruence|].
      split; [|congruence]. rewrite Hg2, Hg1.
      destruct antithetic; [done|].
      change (length (List.filter negb (false :: rest)))
        with (S (length (List.filter negb rest))).
      by rewrite Nat.iter_succ_r.
    + destruct (Hbridge1 Hmode) as [Hb1 Hg1].
      destruct Hbridge as [Hb2 Hg2]; [congruence|].
      split; [|congruence]. rewrite Hb2, Hb1.
      destruct antithetic; [done|].
      change (length (List.filter negb (false :: rest)))
        with (S (length (List.filter negb rest))).
      by rewrite Nat.iter_succ_r.
Qed.

(** X12.  When the collaborator retains its draw, the antithetic sample that
    follows a [next()] carries the weight of the direct sample, its path
    has the same length and the same first element, and the antithetic
    call leaves both collaborators as [next()] left them. *)
Theorem antithetic_pairs_with_next pg :
  in_use pg -> runs false pg -> retains_draw pg ->
  exists s pg' s' pg'',
    PathGenerator.next pg = Some (s, pg')
    /\ PathGenerator.antithetic pg' = Some (s', pg'')
    /\ weight s' = weight s
    /\ length (value s') = length (value s)
    /\ value s' !! 0 = value s !! 0
    /\ PathGenerator.generator_ pg'' = PathGenerator.generator_ pg'
    /\ PathGenerator.bb_ pg'' = PathGenerator.bb_ pg'.
Proof.
  intros Huse Hruns Hkeep.
  destruct (next_bool_total false pg Huse Hruns) as (s & pg' & Hrun).
  pose proof (in_use_call false pg s pg' Huse Hrun) as Huse'.
  pose proof (runs_after_next pg s pg' Hkeep Hruns Hrun) as Hruns'.
  destruct (next_bool_total true pg' Huse' Hruns') as (s' & pg'' & Hrun').
  exists s, pg', s', pg''. split; [done|]. split; [done|].
  pose proof (obtained_after_next pg s pg' Hkeep Hrun) as Hsame.
  pose proof (next_bool_frame _ _ _ _ Hrun) as (Hflag & _ & _ & Hp & Hs & _).
  pose proof (next_bool_frame _ _ _ _ Hrun') as (_ & _ & _ & _ & _ & Hlen').
  rewrite Hs in Hlen'.
  pose proof (antithetic_rewrites_buffer pg' s' pg'' Hrun') as [-> _].
  assert (Hw : weight s = weight (obtained false pg)
               /\ exists p, value s !! 0 = Some (x0 p)
                            /\ PathGenerator.process_ pg = Some p).
  { destruct (PathGenerator.brownianBridge_ pg) eqn:Hmode.
    - apply next_bool_bridge in Hrun as (p & ? & _ & ? & _ & _ & ? & _);
        [|done]. eauto.
    - apply next_bool_direct in Hrun as (p & ? & _ & ? & _ & ? & _); [|done].
      eauto. }
  destruct Hw as (Hw & p & H0 & Hq).
  assert (Hw' : weight s' = weight (obtained true pg')
                /\ value s' !! 0 = Some (x0 p)).
  { destruct (PathGenerator.brownianBridge_ pg') eqn:Hmode.
    - apply next_bool_bridge in Hrun' as (q & ? & _ & ? & _ & _ & ? & _);
        [|done]. assert (q = p) as -> by congruence. done.
    - apply next_bool_direct in Hrun' as (q & ? & _ & ? & _ & ? & _); [|done].
      assert (q = p) as -> by congruence. done. }
  destruct Hw' as (Hw' & H0').
  split; [congruence|]. split; [done|]. split; [congruence|]. done.
Qed.

(** *** What a call reads of the obtained vector *)

Lemma differences_lookup_all (b : list Real) : forall previous k,
  differences previous b !! k
  = match k with
    | 0 => x ← b !! 0; Some (x - previous)%Qc
    | S j => hi ← b !! S j; lo ← b !! j; Some (hi - lo)%Qc
    end.
Proof.
  induction b as [|x b IH]; intros previous k.
  - by destruct k.
  - destruct k as [|k]; [done|]. simpl. rewrite IH.
    destruct k as [|k]; simpl; [|done]. by destruct (b !! 0).
Qed.

Lemma recovered_diffusions_lookup (b : list Real) k :
  recovered_diffusions b !! k
  = match k with
    | 0 => b !! 0
    | S j => hi ← b !! S j; lo ← b !! j; Some (hi - lo)%Qc
    end.
Proof.
  destruct b as [|b0 rest]; [by destruct k|].
  destruct k as [|k]; [done|]. simpl. rewrite differences_lookup_all.
  destruct k as [|k]; simpl; [|done]. by destruct (rest !! 0).
Qed.

Lemma take_lookup_agree (n : nat) (v1 v2 : list Real) k :
  take n v1 = take n v2 -> k < n -> v1 !! k = v2 !! k.
Proof.
  intros Htake Hk.
  rewrite <- (lookup_take_lt v1 n k Hk), <- (lookup_take_lt v2 n k Hk).
  by rewrite Htake.
Qed.

Lemma recovered_diffusions_agree (n : nat) (v1 v2 : list Real) k :
  take n v1 = take n v2 -> k < n ->
  recovered_diffusions v1 !! k = recovered_diffusions v2 !! k.
Proof.
  intros Htake Hk. rewrite !recovered_diffusions_lookup.
  destruct k as [|k].
  - by apply (take_lookup_agree n).
  - rewrite (take_lookup_agree n v1 v2 (S k) Htake Hk).
    by rewrite (take_lookup_agree n v1 v2 k Htake ltac:(lia)).
Qed.

(** X13.  A call reads the weight of the obtained vector and its first N
    variates, N being the number of steps, and nothing more of it: two
    objects in use with the same flag, grid and process, whose obtained
    vectors have the same weight and the same first N entries, return the
    same sample, or are both undefined. *)
Theorem call_reads_first_variates_only antithetic pg1 pg2 :
  in_use pg1 -> in_use pg2 ->
  PathGenerator.brownianBridge_ pg1 = PathGenerator.brownianBridge_ pg2 ->
  PathGenerator.timeGrid pg1 = PathGenerator.timeGrid pg2 ->
  PathGenerator.process_ pg1 = PathGenerator.process_ pg2 ->
  weight (obtained antithetic pg1) = weight (obtained antithetic pg2) ->
  take (N.to_nat (PathGenerator.size pg1)) (value (obtained antithetic pg1))
  = take (N.to_nat (PathGenerator.size pg1))
      (value (obtained antithetic pg2)) ->
  fst <$> PathGenerator.next_bool antithetic pg1
  = fst <$> PathGenerator.next_bool antithetic pg2.
Proof.
  intros Huse1 Huse2 Hflag Hgrid Hprocess Hweight Htake.
  unfold PathGenerator.timeGrid in Hgrid.
  pose proof (in_use_consistent pg1 Huse1) as Hc1.
  pose proof (in_use_consistent pg2 Huse2) as Hc2.
  assert (Hpoints : points pg2 = points pg1) by (unfold points; congruence).
  destruct (decide (1 <= points pg1)) as [Hone|Hnone]; cycle 1.
  { rewrite !next_bool_undefined; [done|done| |done|].
    - unfold runs. destruct (PathGenerator.brownianBridge_ pg2); lia.
    - unfold runs. destruct (PathGenerator.brownianBridge_ pg1); lia. }
  pose proof (steps_points pg1 Hc1 Hone) as HN.
  set (n := N.to_nat (PathGenerator.size pg1)) in *.
  assert (Hlens : n <= length (value (obtained antithetic pg1))
                  <-> n <= length (value (obtained antithetic pg2))).
  { apply (f_equal length) in Htake. rewrite !length_take in Htake. lia. }
  assert (Hruns : runs antithetic pg1 <-> runs antithetic pg2).
  { unfold runs. rewrite Hpoints, Hprocess, Hflag.
    replace (points pg1 - 1) with n by lia. by rewrite Hlens. }
  destruct (PathGenerator.next_bool antithetic pg1) as [[s1 pg1']|] eqn:Hrun1;
    cycle 1.
  { rewrite next_bool_undefined; [done|done|]. intros Hruns2.
    apply Hruns in Hruns2. apply (next_bool_runs antithetic pg1 Hc1) in Hruns2.
    rewrite Hrun1 in Hruns2. by destruct Hruns2. }
  assert (Hruns1 : runs antithetic pg1)
    by (apply (next_bool_runs antithetic pg1 Hc1); by eexists).
  destruct (next_bool_total antithetic pg2 Huse2 (proj1 Hruns Hruns1))
    as (s2 & pg2' & Hrun2).
  rewrite Hrun2. simpl. f_equal.
  destruct Hc1 as [Hbuf1 _], Hc2 as [Hbuf2 _].
  destruct (PathGenerator.brownianBridge_ pg1) eqn:Hmode.
  - apply next_bool_bridge in Hrun1
      as (p1 & Hp1 & _ & Hw1 & Hlen1 & _ & H01 & Hsteps1); [|done].
    apply next_bool_bridge in Hrun2
      as (p2 & Hp2 & _ & Hw2 & Hlen2 & _ & H02 & Hsteps2); [|done].
    assert (p2 = p1) as -> by congruence.
    rewrite Hbuf1 in Hlen1. rewrite Hbuf2, Hpoints in Hlen2.
    destruct s1 as [v1 w1], s2 as [v2 w2]. simpl in *.
    f_equal; [|congruence].
    apply (paths_agree
             (fun i prev x =>
                exists d,
                  recovered_diffusions (value (obtained antithetic pg1))
                    !! (i - 1) = Some d
                  /\ bridge_value p1 (PathGenerator.timeGrid_ pg1)
                       antithetic d i prev x)).
    + intros i prev x x' (d & Hd & Hx) (d' & Hd' & Hx').
      assert (d' = d) as -> by congruence.
      by eapply bridge_value_functional.
    + congruence.
    + congruence.
    + intros i Hi.
      destruct (Hsteps1 i Hi) as (_ & prev & x & d & ? & ? & ? & ?).
      exists prev, x. split; [done|]. split; [done|]. by exists d.
    + intros i Hi.
      destruct (Hsteps2 i Hi) as (_ & prev & x & d & ? & ? & Hd & Hx).
      exists prev, x. split; [done|]. split; [done|]. exists d.
      rewrite Hgrid. split; [|done]. rewrite <- Hd.
      apply (recovered_diffusions_agree n); [done|lia].
  - apply next_bool_direct in Hrun1
      as (p1 & Hp1 & _ & Hw1 & Hlen1 & H01 & Hsteps1); [|done].
    apply next_bool_direct in Hrun2
      as (p2 & Hp2 & _ & Hw2 & Hlen2 & H02 & Hsteps2); [|done].
    assert (p2 = p1) as -> by congruence.
    rewrite Hbuf1 in Hlen1. rewrite Hbuf2, Hpoints in Hlen2.
    destruct s1 as [v1 w1], s2 as [v2 w2]. simpl in *.
    f_equal; [|congruence].
    apply (paths_agree
             (direct_value p1 (PathGenerator.timeGrid_ pg1)
                (value (obtained antithetic pg1)) antithetic)).
    + intros i prev x x'. apply direct_value_functional.
    + congruence.
    + congruence.
    + intros i Hi. destruct (Hsteps1 i Hi) as (_ & prev & x & ? & ? & ?).
      by exists prev, x.
    + intros i Hi.
      destruct (Hsteps2 i Hi) as (_ & prev & x & ? & ? & t & dt & z & Ht & Hdt
                                  & Hz & Hx).
      exists prev, x. split; [done|]. split; [done|].
      exists t, dt, z. rewrite Hgrid. split; [done|]. split; [done|].
      split; [|done]. rewrite <- Hz.
      apply (take_lookup_agree n); [done|lia].
Qed.

(** X14.  Of the process, the direct branch calls [x0] and [evolve] and nothing
    else, and the bridge branch calls [x0], [expectation] and [apply] and
    nothing else: two objects in use that differ in their process only
    return the same sample as soon as the two processes agree on the
    functions their branch calls. *)
Theorem branch_calls_its_own_process_functions antithetic pg1 pg2 p1 p2 :
  in_use pg1 -> in_use pg2 ->
  PathGenerator.brownianBridge_ pg1 = PathGenerator.brownianBridge_ pg2 ->
  PathGenerator.timeGrid pg1 = PathGenerator.timeGrid pg2 ->
  obtained antithetic pg1 = obtained antithetic pg2 ->
  PathGenerator.process_ pg1 = Some p1 ->
  PathGenerator.process_ pg2 = Some p2 ->
  x0 p1 = x0 p2 ->
  (PathGenerator.brownianBridge_ pg1 = false ->
   forall t x dt dw : Real, evolve p1 t x dt dw = evolve p2 t x dt dw) ->
  (PathGenerator.brownianBridge_ pg1 = true ->
   forall t x dt shock : Real,
     apply p1 (expectation p1 t x dt) shock
     = apply p2 (expectation p2 t x dt) shock) ->
  fst <$> PathGenerator.next_bool antithetic pg1
  = fst <$> PathGenerator.next_bool antithetic pg2.
Proof.
  intros Huse1 Huse2 Hflag Hgrid Hsame Hp1 Hp2 Hx0 Hevolve Happly.
  unfold PathGenerator.timeGrid in Hgrid.
  pose proof (in_use_consistent pg1 Huse1) as Hc1.
  pose proof (in_use_consistent pg2 Huse2) as Hc2.
  assert (Hpoints : points pg2 = points pg1) by (unfold points; congruence).
  assert (Hruns : runs antithetic pg1 <-> runs antithetic pg2).
  { unfold runs. rewrite Hpoints, Hp1, Hp2, Hflag, Hsame.
    split; intros (_ & ? & ?); (split; [by eexists|done]). }
  destruct (PathGenerator.next_bool antithetic pg1) as [[s1 pg1']|] eqn:Hrun1;
    cycle 1.
  { rewrite next_bool_undefined; [done|done|]. intros Hruns2.
    apply Hruns in Hruns2. apply (next_bool_runs antithetic pg1 Hc1) in Hruns2.
    rewrite Hrun1 in Hruns2. by destruct Hruns2. }
  assert (Hruns1 : runs antithetic pg1)
    by (apply (next_bool_runs antithetic pg1 Hc1); by eexists).
  destruct (next_bool_total antithetic pg2 Huse2 (proj1 Hruns Hruns1))
    as (s2 & pg2' & Hrun2).
  rewrite Hrun2. simpl. f_equal.
  destruct Hc1 as [Hbuf1 _], Hc2 as [Hbuf2 _].
  destruct (PathGenerator.brownianBridge_ pg1) eqn:Hmode.
  - apply next_bool_bridge in Hrun1
      as (q1 & Hq1 & _ & Hw1 & Hlen1 & _ & H01 & Hsteps1); [|done].
    apply next_bool_bridge in Hrun2
      as (q2 & Hq2 & _ & Hw2 & Hlen2 & _ & H02 & Hsteps2); [|done].
    assert (q1 = p1) as -> by congruence. assert (q2 = p2) as -> by congruence.
    rewrite Hbuf1 in Hlen1. rewrite Hbuf2, Hpoints in Hlen2.
    destruct s1 as [v1 w1], s2 as [v2 w2]. simpl in *.
    f_equal; [|congruence].
    apply (paths_agree
             (fun i prev x =>
                exists d,
                  recovered_diffusions (value (obtained antithetic pg1))
                    !! (i - 1) = Some d
                  /\ bridge_value p1 (PathGenerator.timeGrid_ pg1)
                       antithetic d i prev x)).
    + intros i prev x x' (d & Hd & Hx) (d' & Hd' & Hx').
      assert (d' = d) as -> by congruence.
      by eapply bridge_value_functional.
    + congruence.
    + congruence.
    + intros i Hi.
      destruct (Hsteps1 i Hi) as (_ & prev & x & d & ? & ? & ? & ?).
      exists prev, x. split; [done|]. split; [done|]. by exists d.
    + intros i Hi.
      destruct (Hsteps2 i Hi) as (_ & prev & x & d & ? & ? & Hd & t & dt & Ht
                                  & Hdt & Hx).
      exists prev, x. split; [done|]. split; [done|]. exists d.
      rewrite Hsame, Hgrid. split; [done|]. exists t, dt.
      split; [done|]. split; [done|]. by rewrite Happly.
  - apply next_bool_direct in Hrun1
      as (q1 & Hq1 & _ & Hw1 & Hlen1 & H01 & Hsteps1); [|done].
    apply next_bool_direct in Hrun2
      as (q2 & Hq2 & _ & Hw2 & Hlen2 & H02 & Hsteps2); [|done].
    assert (q1 = p1) as -> by congruence. assert (q2 = p2) as -> by congruence.
    rewrite Hbuf1 in Hlen1. rewrite Hbuf2, Hpoints in Hlen2.
    destruct s1 as [v1 w1], s2 as [v2 w2]. simpl in *.
    f_equal; [|congruence].
    apply (paths_agree
             (direct_value p1 (PathGenerator.timeGrid_ pg1)
                (value (obtained antithetic pg1)) antithetic)).
    + intros i prev x x'. apply direct_value_functional.
    + congruence.
    + congruence.
    + intros i Hi. destruct (Hsteps1 i Hi) as (_ & prev & x & ? & ? & ?).
      by exists prev, x.
    + intros i Hi.
      destruct (Hsteps2 i Hi) as (_ & prev & x & ? & ? & t & dt & z & Ht & Hdt
                                  & Hz & Hx).
      exists prev, x. split; [done|]. split; [done|].
      exists t, dt, z. rewrite Hsame, Hgrid. split; [done|]. split; [done|].
      split; [done|]. by rewrite Hevolve.
Qed.

(** *** Scripts of calls *)

Lemma run_ignores_buffer script pg b1 b2 :
  length (value b1) = length (value b2) ->
  fst <$> run script (with_buffer pg b1)
  = fst <$> run script (with_buffer pg b2).
Proof.
  intros Hlen. destruct script as [|antithetic rest]; [done|]. simpl.
  by rewrite (next_bool_ignores_buffer antithetic pg b1 b2 Hlen).
Qed.

(** X2.  The [antithetic()] calls of a sequence of calls can be dropped
    without changing what its [next()] calls return: if the sequence is
    defined, so is the sequence of its [next()] calls alone, and it
    returns the samples that the [next()] calls of the whole sequence
    returned. *)
Theorem antithetic_calls_can_be_dropped script : forall pg samples pg',
  run script pg = Some (samples, pg') ->
  fst <$> run (List.filter negb script) pg
  = Some (fresh_samples script samples).
Proof.
  induction script as [|antithetic rest IH]; intros pg samples pg' Hrun.
  - by injection Hrun as <- <-.
  - simpl in Hrun.
    apply bind_Some in Hrun as ([s pg1] & Hcall & Hrun).
    apply bind_Some in Hrun as ([more pg2] & Hrest & Hrun).
    injection Hrun as <- <-.
    pose proof (IH pg1 more pg2 Hrest) as Hdropped.
    destruct antithetic; simpl.
    + destruct (antithetic_rewrites_buffer pg s pg1 Hcall) as [-> Hlen].
      rewrite <- (with_own_buffer pg) at 1. rewrite <- Hdropped.
      by apply run_ignores_buffer.
    + rewrite Hcall. simpl.
      destruct (run (List.filter negb rest) pg1) as [[kept last]|];
        [|done].
      simpl in *. by injection Hdropped as ->.
Qed.

(** *** The error message *)

Lemma append_cancel_l (prefix a b : string) :
  String.append prefix a = String.append prefix b -> a = b.
Proof. induction prefix as [|c prefix IH]; simpl; [done|]. intros [=]. auto. Qed.

Lemma digits_string_of_uint (d : Decimal.uint) :
  digits (NilEmpty.string_of_uint d) = true.
Proof. induction d; simpl; done. Qed.

Lemma digits_show_Size (n : Size) : digits (show_Size n) = true.
Proof.
  unfold show_Size, NilZero.string_of_uint.
  destruct (N.to_uint n); [done|..]; apply digits_string_of_uint.
Qed.

Lemma show_Size_inj (n n' : Size) : show_Size n = show_Size n' -> n = n'.
Proof.
  unfold show_Size. intros Hshow. apply DecimalN.Unsigned.to_uint_inj.
  assert (Hnonnil : forall m : N, N.to_uint m <> Decimal.Nil).
  { intros [|q]; [done|]. apply DecimalPos.Unsigned.to_uint_nonnil. }
  pose proof (NilZero.usu (N.to_uint n) (Hnonnil n)) as Hn.
  pose proof (NilZero.usu (N.to_uint n') (Hnonnil n')) as Hn'.
  congruence.
Qed.

Lemma digits_end_at_bracket (a : string) : forall (b r r' : string),
  digits a = true -> digits b = true ->
  String.append a (String ")"%char r) = String.append b (String ")"%char r') ->
  a = b /\ r = r'.
Proof.
  induction a as [|c a IH]; intros [|c' b] r r' Ha Hb Heq; simpl in *.
  - by injection Heq as ->.
  - injection Heq as <- _. done.
  - injection Heq as -> _. done.
  - apply andb_true_iff in Ha as [_ Ha]. apply andb_true_iff in Hb as [_ Hb].
    injection Heq as -> Heq. destruct (IH b r r' Ha Hb Heq) as [-> ->]. done.
Qed.

(** X9.  The message of the dimension check determines the two values it
    names: two mismatches give the same message only if they have the
    same dimension and the same number of steps. *)
Theorem message_determines_both_values (d n d' n' : Size) :
  PathGenerator.mismatch d n = PathGenerator.mismatch d' n'
  <-> d = d' /\ n = n'.
Proof.
  split; [|by intros [-> ->]].
  unfold PathGenerator.mismatch. intros Heq.
  apply append_cancel_l in Heq.
  change (String.append ") != timeSteps (" ?x)
    with (String ")"%char (String.append " != timeSteps (" x)) in Heq.
  apply digits_end_at_bracket in Heq as [Hd Heq];
    [|apply digits_show_Size..].
  apply append_cancel_l in Heq.
  change ")"%string with (String ")"%char EmptyString) in Heq.
  apply digits_end_at_bracket in Heq as [Hn _]; [|apply digits_show_Size..].
  split; by apply show_Size_inj.
Qed.

End Further.

(** ** The class at explicit inputs *)

Lemma two_steps_constructed p generator brownianBridge :
  scripted_dimension generator = 2%N ->
  PathGenerator.make_uniform (OneDimensional p) (Q2Qc 1) 2 generator
    brownianBridge = inr (two_steps p generator brownianBridge).
Proof.
  intros Hdim. unfold PathGenerator.make_uniform. simpl dimension.
  rewrite Hdim. reflexivity.
Qed.

Lemma two_steps_in_use p generator brownianBridge :
  scripted_dimension generator = 2%N ->
  in_use (two_steps p generator brownianBridge).
Proof.
  intros Hdim. apply in_use_new.
  eapply constructed_uniform. by apply two_steps_constructed.
Qed.

Lemma two_steps_runs antithetic p generator brownianBridge :
  2 <= length (value (obtained antithetic
                        (two_steps p generator brownianBridge))) ->
  runs antithetic (two_steps p generator brownianBridge).
Proof.
  intros Hv. unfold runs. split; [by eexists|]. split; [|exact Hv].
  destruct brownianBridge; vm_compute; lia.
Qed.

(** *** Examples of construction *)

Example construction_succeeds :
  exists pg,
    PathGenerator.make_uniform (BB := Bridge) (OneDimensional plain_process)
      (Q2Qc 1) 2 two_draws false = inr pg
    /\ PathGenerator.size pg = 2%N
    /\ TimeGrid.size (PathGenerator.timeGrid pg) = 3%N.
Proof. eexists. split; [reflexivity|]. split; reflexivity. Qed.

Example construction_fails :
  PathGenerator.make_uniform (BB := Bridge) (OneDimensional plain_process)
    (Q2Qc 1) 3 two_draws false
  = inl (ConfigurationError
           "sequence generator dimensionality (2) != timeSteps (3)").
Proof. reflexivity. Qed.

Example construction_on_empty_grid_fails :
  PathGenerator.make_grid (BB := Bridge) (OneDimensional plain_process)
    (TimeGrid.mk []) (mkScripted 0 [] (draw [] 0%Q)) false
  = inl (ConfigurationError
           "sequence generator dimensionality (0) != timeSteps (18446744073709551615)").
Proof. reflexivity. Qed.

Example bridge_example_paths :
  exists s pg' s' pg'',
    PathGenerator.next (two_steps plain_process bridge_draws true)
    = Some (s, pg')
    /\ value (obtained false (two_steps plain_process bridge_draws true))
       = [Q2Qc 0.5; Q2Qc 0.5]
    /\ value s = [Q2Qc 100; Q2Qc 100.5; Q2Qc 100.5]
    /\ weight s = Q2Qc (3 # 4)
    /\ PathGenerator.antithetic pg' = Some (s', pg'')
    /\ value s' = [Q2Qc 100; Q2Qc 99.5; Q2Qc 99.5].
Proof.
  eexists _, _, _, _. split; [reflexivity|]. split; [compute_done|].
  split; [compute_done|]. split; [compute_done|]. split; [reflexivity|].
  compute_done.
Qed.

(** *** The theorems at explicit inputs *)

(** The direct-mode recurrence on the two-step grid, for a process whose
    [evolve] scales the shock by the step. *)
Lemma direct_mode_recurrence_witness :
  let pg := two_steps step_scaled_process two_draws false in
  exists p s pg',
    PathGenerator.process_ pg = Some p
    /\ PathGenerator.next_bool false pg = Some (s, pg')
    /\ forall i, 1 <= i <= N.to_nat (PathGenerator.size pg) ->
         exists t dt prev z,
           TimeGrid.at_ (PathGenerator.timeGrid pg) (i - 1) = Some t
           /\ TimeGrid.dt (PathGenerator.timeGrid pg) (i - 1) = Some dt
           /\ value s !! (i - 1) = Some prev
           /\ value (obtained false pg) !! (i - 1) = Some z
           /\ value s !! i = Some (evolve p t prev dt (sign false * z)%Qc).
Proof.
  apply direct_mode_recurrence.
  - apply two_steps_in_use. reflexivity.
  - reflexivity.
  - apply two_steps_runs. vm_compute. lia.
Defined.


(** The shape of the first path on the two-step grid. *)
Lemma next_path_shape_witness :
  let pg := two_steps plain_process two_draws false in
  exists p s pg',
    PathGenerator.process_ pg = Some p
    /\ PathGenerator.next pg = Some (s, pg')
    /\ length (value s) = N.to_nat (PathGenerator.size pg) + 1
    /\ value s !! 0 = Some (x0 p).
Proof.
  apply next_path_shape.
  - apply two_steps_in_use. reflexivity.
  - apply two_steps_runs. vm_compute. lia.
Defined.

(** The negated shocks in direct mode, for shocks scaled by the step, and
    in bridge mode, for the bridge output [0.5, 0.5]. *)
Lemma antithetic_negates_every_shock_witness :
  (let pg := two_steps step_scaled_process two_draws false in
   exists p s pg' s' pg'',
     PathGenerator.process_ pg = Some p
     /\ PathGenerator.next pg = Some (s, pg')
     /\ PathGenerator.antithetic pg' = Some (s', pg'')
     /\ (PathGenerator.brownianBridge_ pg = true ->
         forall i, 1 <= i <= N.to_nat (PathGenerator.size pg) ->
           exists t dt prev prev' d,
             TimeGrid.at_ (PathGenerator.timeGrid pg) (i - 1) = Some t
             /\ TimeGrid.dt (PathGenerator.timeGrid pg) (i - 1) = Some dt
             /\ recovered_diffusions
                  (value (snd (BrownianBridge.next (PathGenerator.bb_ pg))))
                  !! (i - 1) = Some d
             /\ value s !! (i - 1) = Some prev
             /\ value s' !! (i - 1) = Some prev'
             /\ value s !! i = Some (apply p (expectation p t prev dt) d)
             /\ value s' !! i
                = Some (apply p (expectation p t prev' dt) (- d)%Qc))
     /\ (PathGenerator.brownianBridge_ pg = false ->
         forall i, 1 <= i <= N.to_nat (PathGenerator.size pg) ->
           exists t dt prev prev' z,
             TimeGrid.at_ (PathGenerator.timeGrid pg) (i - 1) = Some t
             /\ TimeGrid.dt (PathGenerator.timeGrid pg) (i - 1) = Some dt
             /\ value (snd (nextSequence (PathGenerator.generator_ pg)))
                  !! (i - 1) = Some z
             /\ value s !! (i - 1) = Some prev
             /\ value s' !! (i - 1) = Some prev'
             /\ value s !! i = Some (evolve p t prev dt z)
             /\ value s' !! i = Some (evolve p t prev' dt (- z)%Qc)))
  /\ (let pg := two_steps plain_process bridge_draws true in
      exists p s pg' s' pg'',
        PathGenerator.process_ pg = Some p
        /\ PathGenerator.next pg = Some (s, pg')
        /\ PathGenerator.antithetic pg' = Some (s', pg'')
        /\ (PathGenerator.brownianBridge_ pg = true ->
            forall i, 1 <= i <= N.to_nat (PathGenerator.size pg) ->
              exists t dt prev prev' d,
                TimeGrid.at_ (PathGenerator.timeGrid pg) (i - 1) = Some t
                /\ TimeGrid.dt (PathGenerator.timeGrid pg) (i - 1) = Some dt
                /\ recovered_diffusions
                     (value (snd (BrownianBridge.next
                                    (PathGenerator.bb_ pg))))
                     !! (i - 1) = Some d
                /\ value s !! (i - 1) = Some prev
                /\ value s' !! (i - 1) = Some prev'
                /\ value s !! i = Some (apply p (expectation p t prev dt) d)
                /\ value s' !! i
                   = Some (apply p (expectation p t prev' dt) (- d)%Qc))
        /\ (PathGenerator.brownianBridge_ pg = false ->
            forall i, 1 <= i <= N.to_nat (PathGenerator.size pg) ->
              exists t dt prev prev' z,
                TimeGrid.at_ (PathGenerator.timeGrid pg) (i - 1) = Some t
                /\ TimeGrid.dt (PathGenerator.timeGrid pg) (i - 1) = Some dt
                /\ value (snd (nextSequence (PathGenerator.generator_ pg)))
                     !! (i - 1) = Some z
                /\ value s !! (i - 1) = Some prev
                /\ value s' !! (i - 1) = Some prev'
                /\ value s !! i = Some (evolve p t prev dt z)
                /\ value s' !! i = Some (evolve p t prev' dt (- z)%Qc))).
Proof.
  split.
  - apply antithetic_negates_every_shock.
    + apply two_steps_in_use. reflexivity.
    + apply two_steps_runs. vm_compute. lia.
    + reflexivity.
  - apply antithetic_negates_every_shock.
    + apply two_steps_in_use. reflexivity.
    + apply two_steps_runs. vm_compute. lia.
    + reflexivity.
Defined.

(** The weight 3/4 of the bridge's sample reaches the returned sample. *)
Lemma weight_passes_through_witness :
  let pg := two_steps plain_process bridge_draws true in
  exists s pg',
    PathGenerator.next_bool false pg = Some (s, pg')
    /\ weight s = weight (obtained false pg)
    /\ (PathGenerator.brownianBridge_ pg = false ->
        weight s
        = weight (snd (nextSequence (PathGenerator.generator_ pg))))
    /\ (PathGenerator.brownianBridge_ pg = true ->
        weight s
        = weight (snd (BrownianBridge.next (PathGenerator.bb_ pg)))).
Proof.
  apply (weight_passes_through false).
  - apply two_steps_in_use. reflexivity.
  - apply two_steps_runs. vm_compute. lia.
Defined.

(** The same configuration built once by each constructor. *)
Lemma first_path_is_deterministic_witness :
  let pg1 := two_steps plain_process two_draws false in
  let pg2 := two_steps plain_process two_draws false in
  (runs false pg1 <-> runs false pg2)
  /\ (runs false pg1 ->
      exists s1 pg1' s2 pg2',
        PathGenerator.next pg1 = Some (s1, pg1')
        /\ PathGenerator.next pg2 = Some (s2, pg2')
        /\ value s1 = value s2 /\ weight s1 = weight s2)
  /\ (forall b1 b2 : Sample Path.t,
        length (value b1) = points pg1 -> length (value b2) = points pg2 ->
        PathGenerator.next (with_buffer pg1 b1)
        = PathGenerator.next (with_buffer pg2 b2)).
Proof.
  apply first_path_is_deterministic.
  - eapply constructed_uniform. by apply two_steps_constructed.
  - apply (constructed_grid (OneDimensional plain_process)
             (TimeGrid.uniform (Q2Qc 1) 2) two_draws false).
    reflexivity.
  - reflexivity.
  - reflexivity.
  - reflexivity.
  - reflexivity.
Defined.

(** Two steps, three grid points, before and after any call. *)
Lemma size_is_step_count_witness :
  let pg := two_steps plain_process two_draws false in
  PathGenerator.size pg
  = Size_minus_one (TimeGrid.size (PathGenerator.timeGrid pg))
  /\ (1 <= points pg -> N.to_nat (PathGenerator.size pg) + 1 = points pg)
  /\ forall antithetic s pg',
       PathGenerator.next_bool antithetic pg = Some (s, pg') ->
       PathGenerator.size pg' = PathGenerator.size pg
       /\ PathGenerator.timeGrid pg' = PathGenerator.timeGrid pg
       /\ PathGenerator.size pg'
          = Size_minus_one (TimeGrid.size (PathGenerator.timeGrid pg')).
Proof.
  apply size_is_step_count. apply two_steps_in_use. reflexivity.
Defined.

(** *** Where the code departs from the wording *)

(** Against C2 as worded: with a process whose [evolve] scales the shock by
    the step (as QuantLib's default [evolve] scales it by the step standard
    deviation), the direct-mode path is [100, 100.05, 99.95], not what
    applying the variates to the expectation gives. *)
Lemma direct_mode_calls_evolve :
  let pg := two_steps step_scaled_process two_draws false in
  exists s pg',
    in_use pg /\ PathGenerator.brownianBridge_ pg = false /\ runs false pg
    /\ PathGenerator.process_ pg = Some step_scaled_process
    /\ PathGenerator.next pg = Some (s, pg')
    /\ value s = [Q2Qc 100; Q2Qc 100.05; Q2Qc 99.95]
    /\ ~ steps_apply_to_expectation false pg step_scaled_process s.
Proof.
  cbv zeta. eexists _, _.
  split; [by apply two_steps_in_use|]. split; [reflexivity|].
  split; [apply two_steps_runs; vm_compute; lia|]. split; [reflexivity|].
  split; [reflexivity|].
  match goal with |- value ?s = _ /\ _ =>
    assert (Hs : value s = [Q2Qc 100; Q2Qc 100.05; Q2Qc 99.95])
      by compute_done; set (sample := s) in * end.
  split; [exact Hs|].
  intros Hclaim. destruct (Hclaim 1) as (t & dt & prev & z & Ht & Hdt & Hprev
                                         & Hz & Hx); [vm_compute; lia|].
  rewrite Hs in Hprev, Hx.
  assert (Hz' : value (obtained false
                         (two_steps step_scaled_process two_draws false))
                = [Q2Qc 0.1; Q2Qc (-0.2)]) by compute_done.
  rewrite Hz' in Hz. simpl in Hprev, Hz, Hx.
  injection Hprev as <-. injection Hz as <-.
  revert Hx. compute_done.
Qed.


(** ** The further properties at explicit inputs *)

Lemma no_step_in_use brownianBridge : in_use (no_step brownianBridge).
Proof.
  apply in_use_new.
  apply (constructed_grid (OneDimensional plain_process)
           (TimeGrid.mk [Q2Qc 0]) (mkScripted 0 [] (draw [] 1%Q))
           brownianBridge).
  reflexivity.
Qed.

(** An antithetic call on a generator that has drawn once, and the calls
    after it. *)
Lemma antithetic_is_transparent_witness :
  let pg := two_steps plain_process drawn_once false in
  exists s pg',
    PathGenerator.antithetic pg = Some (s, pg')
    /\ (forall antithetic,
          PathGenerator.next_bool antithetic pg'
          = PathGenerator.next_bool antithetic pg)
    /\ PathGenerator.antithetic pg' = Some (s, pg').
Proof.
  cbv zeta. eexists _, _. split; [reflexivity|].
  apply antithetic_is_transparent. reflexivity.
Defined.

(** Definedness of the first call on the two-step grid. *)
Lemma call_is_defined_exactly_when_witness :
  let pg := two_steps plain_process two_draws true in
  is_Some (PathGenerator.next_bool false pg)
  <-> (is_Some (PathGenerator.process_ pg)
       /\ (if PathGenerator.brownianBridge_ pg then 2 else 1) <= points pg
       /\ N.to_nat (PathGenerator.size pg)
          <= length (value (obtained false pg))).
Proof.
  apply call_is_defined_exactly_when. apply two_steps_in_use. reflexivity.
Defined.

(** The grid of the single point 0, in bridge mode. *)
Lemma single_point_grid_witness :
  let pg := no_step true in
  PathGenerator.size pg = 0%N
  /\ (PathGenerator.brownianBridge_ pg = true ->
      PathGenerator.next_bool false pg = None)
  /\ (PathGenerator.brownianBridge_ pg = false ->
      forall p, PathGenerator.process_ pg = Some p ->
        exists pg',
          PathGenerator.next_bool false pg
          = Some (mkSample [x0 p] (weight (obtained false pg)), pg')).
Proof.
  apply single_point_grid.
  - apply no_step_in_use.
  - reflexivity.
Defined.

(** An object and the same object after an antithetic call: their buffers
    differ, their next calls do not. *)
Lemma calls_depend_on_collaborators_only_witness :
  let pg1 := two_steps plain_process drawn_once false in
  exists s pg2,
    PathGenerator.antithetic pg1 = Some (s, pg2)
    /\ value (PathGenerator.next_ pg2) <> value (PathGenerator.next_ pg1)
    /\ PathGenerator.next_bool false pg1 = PathGenerator.next_bool false pg2.
Proof.
  cbv zeta. eexists _, _. split; [reflexivity|]. split; [compute_done|].
  apply calls_depend_on_collaborators_only.
  - apply two_steps_in_use. reflexivity.
  - eapply (in_use_call true).
    + apply (two_steps_in_use plain_process drawn_once false). reflexivity.
    + reflexivity.
  - reflexivity.
  - reflexivity.
  - reflexivity.
  - reflexivity.
  - reflexivity.
Defined.

(** Three calls, two of them fresh, in direct mode. *)
Lemma one_draw_per_next_witness :
  let pg := two_steps plain_process drawn_once false in
  exists samples pg',
    run [false; true; false] pg = Some (samples, pg')
    /\ length samples = 3
    /\ PathGenerator.generator_ pg'
       = mkScripted 2 [] (draw [0.5; -0.6]%Q (1 # 2)%Q)
    /\ PathGenerator.bb_ pg' = PathGenerator.bb_ pg.
Proof.
  cbv zeta. eexists _, _. split; [reflexivity|].
  match goal with
  | |- length ?samples = _ /\ PathGenerator.generator_ ?pg' = _ /\ _ =>
      assert (Hrun : run [false; true; false]
                       (two_steps plain_process drawn_once false)
                     = Some (samples, pg')) by reflexivity;
      destruct (one_draw_per_next _ _ _ _ Hrun)
        as (Hlen & _ & _ & _ & _ & Hdirect & _)
  end.
  destruct (Hdirect eq_refl) as [Hgenerator Hbridge].
  split; [exact Hlen|]. split; [|exact Hbridge].
  rewrite Hgenerator. reflexivity.
Defined.

(** A [next()] and the [antithetic()] that follows, on the two-step grid. *)
Lemma antithetic_pairs_with_next_witness :
  let pg := two_steps step_scaled_process two_draws false in
  exists s pg' s' pg'',
    PathGenerator.next pg = Some (s, pg')
    /\ PathGenerator.antithetic pg' = Some (s', pg'')
    /\ weight s' = weight s
    /\ length (value s') = length (value s)
    /\ value s' !! 0 = value s !! 0
    /\ PathGenerator.generator_ pg'' = PathGenerator.generator_ pg'
    /\ PathGenerator.bb_ pg'' = PathGenerator.bb_ pg'.
Proof.
  apply antithetic_pairs_with_next.
  - apply two_steps_in_use. reflexivity.
  - apply two_steps_runs. vm_compute. lia.
  - reflexivity.
Defined.

(** A draw of three variates where two are needed: the third is not
    read. *)
Lemma call_reads_first_variates_only_witness :
  let pg1 := two_steps plain_process
               (mkScripted 2 [draw [0.1; -0.2; 0.7]%Q 1%Q] (draw [] 0%Q))
               false in
  let pg2 := two_steps plain_process two_draws false in
  fst <$> PathGenerator.next_bool false pg1
  = fst <$> PathGenerator.next_bool false pg2.
Proof.
  apply call_reads_first_variates_only.
  - apply two_steps_in_use. reflexivity.
  - apply two_steps_in_use. reflexivity.
  - reflexivity.
  - reflexivity.
  - reflexivity.
  - reflexivity.
  - reflexivity.
Defined.

(** Dropping the antithetic call of a script of three calls. *)
Lemma antithetic_calls_can_be_dropped_witness :
  let pg := two_steps plain_process drawn_once false in
  exists samples pg',
    run [false; true; false] pg = Some (samples, pg')
    /\ fst <$> run [false; false] pg
       = Some (fresh_samples [false; true; false] samples).
Proof.
  cbv zeta. eexists _, _. split; [reflexivity|].
  eapply (antithetic_calls_can_be_dropped [false; true; false]).
  reflexivity.
Defined.

(** In bridge mode, two processes that differ in [evolve] alone. *)
Lemma branch_calls_its_own_process_functions_witness :
  let pg1 := two_steps plain_process bridge_draws true in
  let pg2 := two_steps state_scaled_process bridge_draws true in
  fst <$> PathGenerator.next_bool false pg1
  = fst <$> PathGenerator.next_bool false pg2.
Proof.
  apply (branch_calls_its_own_process_functions false
           (two_steps plain_process bridge_draws true)
           (two_steps state_scaled_process bridge_draws true)
           plain_process state_scaled_process).
  - apply two_steps_in_use. reflexivity.
  - apply two_steps_in_use. reflexivity.
  - reflexivity.
  - reflexivity.
  - reflexivity.
  - reflexivity.
  - reflexivity.
  - reflexivity.
  - intros Hmode. discriminate Hmode.
  - intros _ t x dt shock. reflexivity.
Defined.

(** ** The class over binary64: what depends on rounding *)

(** Closes a goal [o <> Some y], for a given optional [double] [o], by
    comparing its content with [y]. *)
Ltac differs_from y :=
  let H := fresh in
  intros H;
  apply (f_equal (from_option (fun z => PrimFloat.eqb z y) false)) in H;
  vm_compute in H; discriminate H.

(** Closes a goal by a hypothesis [x = y] between two given [double]s that
    differ. *)
Ltac differ H :=
  match type of H with
  | ?x = ?y => apply (f_equal (fun z => PrimFloat.eqb z y)) in H
  end;
  vm_compute in H; discriminate H.

Section Binary64.

Import Double.

(** *** The two-step example *)

(** C5, as the code has it.  On the two-step uniform grid over [0,1]
    (dt = 0.5 each), for a driftless additive process with
    expectation(t,x,dt) = x and x0 = 100 whose [evolve] applies the shock
    to the expectation unscaled, a generator whose [nextSequence()] returns
    [0.1, -0.2] with weight 1 and retains it, and the bridge disabled:
    [next()] returns the path [100, 100.1, 99.899999999999991] with
    weight 1, and the [antithetic()] call that follows returns
    [100, 99.9, 100.10000000000001], each decimal standing for the nearest
    [double].  The last element of either path, rounded at each of its two
    sums, is not the [double] 99.9, respectively 100.1. *)
Theorem end_to_end_two_steps_in_binary64 {GSG BB : Type}
    `{!SequenceGenerator GSG} `{!BrownianBridge.Ops GSG BB}
    (generator generator' : GSG) (p : StochasticProcess1D) :
  dimension generator = 2%N ->
  nextSequence generator = (generator', draw [0.1; -0.2]%float 1%float) ->
  lastSequence generator' = draw [0.1; -0.2]%float 1%float ->
  x0 p = 100%float ->
  (forall t x dt : Real, expectation p t x dt = x) ->
  additive p ->
  (forall t x dt dw : Real,
     evolve p t x dt dw = apply p (expectation p t x dt) dw) ->
  exists pg s pg' s' pg'',
    PathGenerator.make_uniform (BB := BB) (OneDimensional p) 1%float 2
      generator false = inr pg
    /\ TimeGrid.times (PathGenerator.timeGrid pg) = [0; 0.5; 1]%float
    /\ TimeGrid.dt (PathGenerator.timeGrid pg) 0 = Some 0.5%float
    /\ TimeGrid.dt (PathGenerator.timeGrid pg) 1 = Some 0.5%float
    /\ PathGenerator.next pg = Some (s, pg')
    /\ value s = [100; 100.1; 99.899999999999991]%float
    /\ weight s = 1%float
    /\ PathGenerator.antithetic pg' = Some (s', pg'')
    /\ value s' = [100; 99.9; 100.10000000000001]%float
    /\ value s !! 2 <> Some 99.9%float
    /\ value s' !! 2 <> Some 100.1%float.
Proof.
  intros Hdim Hnext Hlast Hx0 Hexp Hadd Hev.
  assert (Hshock : forall t x dt dw : Real, evolve p t x dt dw = (x + dw)%float).
  { intros. by rewrite Hev, Hadd, Hexp. }
  eexists _, _, _, _, _.
  split. { unfold PathGenerator.make_uniform. rewrite Hdim. reflexivity. }
  split; [reflexivity|]. split; [reflexivity|]. split; [reflexivity|].
  split.
  { unfold PathGenerator.next, PathGenerator.next_bool. simpl.
    rewrite Hnext. simpl. reflexivity. }
  split.
  { simpl. unfold PathGenerator.signed. rewrite !Hshock, Hx0. reflexivity. }
  split; [reflexivity|].
  split.
  { unfold PathGenerator.antithetic, PathGenerator.next_bool. simpl.
    rewrite Hlast. simpl. reflexivity. }
  split.
  { simpl. unfold PathGenerator.signed. rewrite !Hshock, Hx0. reflexivity. }
  split.
  - simpl. unfold PathGenerator.signed. rewrite !Hshock, Hx0.
    differs_from 99.9%float.
  - simpl. unfold PathGenerator.signed. rewrite !Hshock, Hx0.
    differs_from 100.1%float.
Qed.

(** The two-step example for the scripted generator and the process whose
    [evolve] adds the shock as it is. *)
Lemma end_to_end_two_steps_in_binary64_witness :
  exists pg s pg' s' pg'',
    PathGenerator.make_uniform (BB := Bridge)
      (OneDimensional (plain_process 100)) 1%float 2 two_draws false
    = inr pg
    /\ TimeGrid.times (PathGenerator.timeGrid pg) = [0; 0.5; 1]%float
    /\ TimeGrid.dt (PathGenerator.timeGrid pg) 0 = Some 0.5%float
    /\ TimeGrid.dt (PathGenerator.timeGrid pg) 1 = Some 0.5%float
    /\ PathGenerator.next pg = Some (s, pg')
    /\ value s = [100; 100.1; 99.899999999999991]%float
    /\ weight s = 1%float
    /\ PathGenerator.antithetic pg' = Some (s', pg'')
    /\ value s' = [100; 99.9; 100.10000000000001]%float
    /\ value s !! 2 <> Some 99.9%float
    /\ value s' !! 2 <> Some 100.1%float.
Proof.
  apply (end_to_end_two_steps_in_binary64 two_draws
           (mkScripted 2 [] (draw [0.1; -0.2]%float 1%float))
           (plain_process 100)).
  - reflexivity.
  - reflexivity.
  - reflexivity.
  - reflexivity.
  - reflexivity.
  - intros mean shock. reflexivity.
  - reflexivity.
Defined.

(** Against C5 as worded.  Every condition of the example holds of the
    step-scaled process (driftless, additive, expectation(t,x,dt) = x,
    x0 = 100) on the two-step grid with the draw [0.1, -0.2] of weight 1
    and the bridge disabled, and [next()] returns [100, 100.05, 99.95].
    And for the process whose [evolve] adds the shock as it is, the last
    elements of the two paths are 99.899999999999991 and
    100.10000000000001, not the [double]s 99.9 and 100.1. *)
Lemma end_to_end_as_worded_fails :
  x0 (step_scaled_process 100) = 100%float
  /\ (forall t x dt : Real, expectation (step_scaled_process 100) t x dt = x)
  /\ additive (step_scaled_process 100)
  /\ dimension two_draws = 2%N
  /\ snd (nextSequence two_draws) = draw [0.1; -0.2]%float 1%float
  /\ (exists pg s pg',
        PathGenerator.make_uniform (BB := Bridge)
          (OneDimensional (step_scaled_process 100)) 1%float 2 two_draws
          false = inr pg
        /\ TimeGrid.times (PathGenerator.timeGrid pg) = [0; 0.5; 1]%float
        /\ PathGenerator.next pg = Some (s, pg')
        /\ value s = [100; 100.05; 99.95]%float
        /\ value s !! 1 <> Some 100.1%float
        /\ value s !! 2 <> Some 99.9%float)
  /\ (exists pg s pg' s' pg'',
        PathGenerator.make_uniform (BB := Bridge)
          (OneDimensional (plain_process 100)) 1%float 2 two_draws false
        = inr pg
        /\ PathGenerator.next pg = Some (s, pg')
        /\ PathGenerator.antithetic pg' = Some (s', pg'')
        /\ value s !! 2 = Some (100 + 0.1 + - 0.2)%float
        /\ value s !! 2 = Some 99.899999999999991%float
        /\ value s !! 2 <> Some 99.9%float
        /\ value s' !! 2 = Some (100 + - 0.1 + - - 0.2)%float
        /\ value s' !! 2 = Some 100.10000000000001%float
        /\ value s' !! 2 <> Some 100.1%float).
Proof.
  split; [reflexivity|]. split; [reflexivity|].
  split; [intros mean shock; reflexivity|]. split; [reflexivity|].
  split; [reflexivity|]. split.
  - eexists _, _, _. split; [reflexivity|]. split; [reflexivity|].
    split; [reflexivity|]. split; [reflexivity|].
    split; [differs_from 100.1%float | differs_from 99.9%float].
  - eexists _, _, _, _, _. split; [reflexivity|]. split; [reflexivity|].
    split; [reflexivity|]. split; [reflexivity|]. split; [reflexivity|].
    split; [differs_from 99.9%float|]. split; [reflexivity|].
    split; [reflexivity|]. differs_from 100.1%float.
Qed.

(** *** The antithetic path and the mirror image of the direct path *)

(** Against C6 as worded.  For the additive process starting at 1 whose
    [evolve] adds the shock as it is, on the grid of the single step from
    0 to 1 and with the draw [0.1], the direct path is [1, 1.1] and the
    antithetic path [1, 0.9]: the direct path lies 0.10000000000000009
    above the step expectation 1 and the antithetic path
    0.099999999999999978 below it, in direct mode and in bridge mode
    alike.  And for an additive process whose [evolve] scales the shock by
    a hundredth of the state, in direct mode on the two-step grid with the
    draw [0.1, -0.2], the direct path lies 0.2002 below its expectation at
    step 2 and the antithetic path 0.1998 above its own. *)
Lemma antithetic_does_not_mirror_in_binary64 :
  additive (plain_process 1)
  /\ (exists pg s pg' s' pg'',
        PathGenerator.make_grid (BB := Bridge)
          (OneDimensional (plain_process 1)) one_step one_draw false
        = inr pg
        /\ PathGenerator.next pg = Some (s, pg')
        /\ PathGenerator.antithetic pg' = Some (s', pg'')
        /\ lastSequence (PathGenerator.generator_ pg')
           = snd (nextSequence (PathGenerator.generator_ pg))
        /\ value s = [1; 1.1]%float
        /\ value s' = [1; 0.9]%float
        /\ ~ mirrored (plain_process 1) (PathGenerator.timeGrid pg)
               (value s) (value s') 1)
  /\ (exists pg s pg' s' pg'',
        PathGenerator.make_grid (BB := Bridge)
          (OneDimensional (plain_process 1)) one_step one_draw true
        = inr pg
        /\ PathGenerator.next pg = Some (s, pg')
        /\ PathGenerator.antithetic pg' = Some (s', pg'')
        /\ BrownianBridge.last (PathGenerator.bb_ pg')
           = snd (BrownianBridge.next (PathGenerator.bb_ pg))
        /\ value s = [1; 1.1]%float
        /\ value s' = [1; 0.9]%float
        /\ ~ mirrored (plain_process 1) (PathGenerator.timeGrid pg)
               (value s) (value s') 1)
  /\ deviation (plain_process 1) 0 1 1 1.1 = 0.10000000000000009%float
  /\ deviation (plain_process 1) 0 1 1 0.9 = (-0.099999999999999978)%float
  /\ additive (state_scaled_process 100)
  /\ (exists pg s pg' s' pg'',
        PathGenerator.make_uniform (BB := Bridge)
          (OneDimensional (state_scaled_process 100)) 1%float 2 two_draws
          false = inr pg
        /\ PathGenerator.next pg = Some (s, pg')
        /\ PathGenerator.antithetic pg' = Some (s', pg'')
        /\ lastSequence (PathGenerator.generator_ pg')
           = snd (nextSequence (PathGenerator.generator_ pg))
        /\ value s = [100; 100.1; 99.899799999999999]%float
        /\ value s' = [100; 99.9; 100.0998]%float
        /\ ~ mirrored (state_scaled_process 100) (PathGenerator.timeGrid pg)
               (value s) (value s') 2).
Proof.
  assert (Hsteps : forall (p : StochasticProcess1D) g (direct anti : Path.t)
                          i t dt prev prev' x x',
            TimeGrid.at_ g (i - 1) = Some t ->
            TimeGrid.dt g (i - 1) = Some dt ->
            direct !! (i - 1) = Some prev -> anti !! (i - 1) = Some prev' ->
            direct !! i = Some x -> anti !! i = Some x' ->
            mirrored p g direct anti i ->
            deviation p t prev' dt x' = (- deviation p t prev dt x)%float).
  { intros p g direct anti i t dt prev prev' x x' Ht Hdt Hprev Hprev' Hx Hx'
           (t1 & dt1 & prev1 & prev1' & x1 & x1' & Ht1 & Hdt1 & Hprev1
            & Hprev1' & Hx1 & Hx1' & Hmirror).
    congruence. }
  split; [intros mean shock; reflexivity|]. split; [|split].
  - eexists _, _, _, _, _. split; [reflexivity|]. split; [reflexivity|].
    split; [reflexivity|]. split; [reflexivity|]. split; [reflexivity|].
    split; [reflexivity|].
    intros Hmirror.
    eapply (Hsteps _ _ _ _ 1 0%float 1%float 1%float 1%float 1.1%float
              0.9%float) in Hmirror; try reflexivity.
    differ Hmirror.
  - eexists _, _, _, _, _. split; [reflexivity|]. split; [reflexivity|].
    split; [reflexivity|]. split; [reflexivity|]. split; [reflexivity|].
    split; [reflexivity|].
    intros Hmirror.
    eapply (Hsteps _ _ _ _ 1 0%float 1%float 1%float 1%float 1.1%float
              0.9%float) in Hmirror; try reflexivity.
    differ Hmirror.
  - split; [reflexivity|]. split; [reflexivity|].
    split; [intros mean shock; reflexivity|].
    eexists _, _, _, _, _. split; [reflexivity|]. split; [reflexivity|].
    split; [reflexivity|]. split; [reflexivity|]. split; [reflexivity|].
    split; [reflexivity|].
    intros Hmirror.
    eapply (Hsteps _ _ _ _ 2 0.5%float 0.5%float 100.1%float 99.9%float
              99.899799999999999%float 100.0998%float) in Hmirror;
      try reflexivity.
    differ Hmirror.
Qed.

(** *** Differencing and summing *)

(** X11.  In bridge mode the path is built from the recovered differences,
    one sum per step, and in binary64 it is not the initial value plus the
    cumulative bridge value: for the additive process starting at 1 and
    the bridge values [0.1, 0.7] on the two-step grid, the path is
    [1, 1.1, 1.7000000000000002], its last element being
    (1 + 0.1) + (0.7 - 0.1), whereas 1 + 0.7 is 1.7. *)
Theorem bridge_path_is_summed_step_by_step :
  exists pg s pg',
    PathGenerator.make_uniform (BB := Bridge)
      (OneDimensional (plain_process 1)) 1%float 2 cumulative_values true
    = inr pg
    /\ value (snd (BrownianBridge.next (PathGenerator.bb_ pg)))
       = [0.1; 0.7]%float
    /\ PathGenerator.next pg = Some (s, pg')
    /\ value s = [1; 1.1; 1.7000000000000002]%float
    /\ value s !! 2 = Some ((1 + 0.1) + (0.7 - 0.1))%float
    /\ (1 + 0.7 = 1.7)%float
    /\ value s !! 2 <> Some (1 + 0.7)%float.
Proof.
  eexists _, _, _. split; [reflexivity|]. split; [reflexivity|].
  split; [reflexivity|]. split; [reflexivity|]. split; [reflexivity|].
  split; [reflexivity|]. differs_from (1 + 0.7)%float.
Qed.

End Binary64.
